(** * mcp-hub: the gateway between a chat model and a set of tool servers

    A shallow embedding of [src/mcp_hub/backend.py]: the multi-server client
    [MCPClient] (connection management, tool discovery, the two-phase query
    dispatch [process_query]), the reasoning-trace filter
    [remove_reasoning_thoughts], and the HTTP handlers [chat_endpoint] and
    [upload_config].

    Python [str] values are sequences of Unicode code points and are modelled
    as [list N].  Python dictionaries keep insertion order and are modelled as
    association lists with unique keys.  The external collaborators (the chat
    completion client, the tool sessions, the JSON parser) are parameters of
    the development; every call to one of them is recorded in a log, so that
    "how often was it called" is a statement about the log.

    A coroutine ends with a value, with an exception, or with the
    cancellation of its task ([asyncio.CancelledError]).  The handlers catch
    [Exception]; a cancellation is a [BaseException] and passes through every
    [except Exception] of the source. *)

From Stdlib Require Import String Ascii List NArith Bool Arith Lia.
From Stdlib Require Import DecimalString.
Import ListNotations.

Set Implicit Arguments.

(* ===================================================================== *)
(** ** Python strings *)
(* ===================================================================== *)

(** A [str] is a sequence of code points. *)
Definition text := list N.

(** The code points of an ASCII literal of the source. *)
Definition py (s : string) : text :=
  List.map N_of_ascii (list_ascii_of_string s).

Fixpoint text_eqb (a b : text) : bool :=
  match a, b with
  | [], [] => true
  | x :: a', y :: b' => N.eqb x y && text_eqb a' b'
  | _, _ => false
  end.

Definition colon : N := 58%N.
Definition newline : N := 10%N.

(** The text before and after the first occurrence of [sep], if any. *)
Fixpoint break_at (sep : N) (s : text) : option (text * text) :=
  match s with
  | [] => None
  | c :: s' =>
      if N.eqb c sep then Some ([], s')
      else
        match break_at sep s' with
        | Some (before, after) => Some (c :: before, after)
        | None => None
        end
  end.

(** [s.split(sep, maxsplit)] for a separator of one code point: the pieces
    between the first [maxsplit] occurrences of [sep], then the rest. *)
Fixpoint str_split (sep : N) (maxsplit : nat) (s : text) : list text :=
  match maxsplit with
  | O => [s]
  | S m =>
      match break_at sep s with
      | None => [s]
      | Some (before, after) => before :: str_split sep m after
      end
  end.

(** [str.isspace] on one code point (the white space of [str.strip]). *)
Definition py_isspace (c : N) : bool :=
  (((9 <=? c) && (c <=? 13)) || ((28 <=? c) && (c <=? 32))
   || (c =? 133) || (c =? 160) || (c =? 5760)
   || ((8192 <=? c) && (c <=? 8202))
   || (c =? 8232) || (c =? 8233) || (c =? 8239) || (c =? 8287)
   || (c =? 12288))%N.

Fixpoint lstrip (s : text) : text :=
  match s with
  | c :: s' => if py_isspace c then lstrip s' else s
  | [] => []
  end.

(** [s.strip()] *)
Definition str_strip (s : text) : text := rev (lstrip (rev (lstrip s))).

(** ["sep".join(parts)] *)
Fixpoint str_join (sep : text) (parts : list text) : text :=
  match parts with
  | [] => []
  | [p] => p
  | p :: ps => p ++ sep ++ str_join sep ps
  end.

(** [str(n)] of a natural number. *)
Definition py_int (n : nat) : text :=
  py (NilZero.string_of_uint (Nat.to_uint n)).

(** The lower-case hexadecimal digits of [n], [width] of them. *)
Definition hex_digit (d : N) : N :=
  (if d <? 10 then 48 + d else 87 + d)%N.

Fixpoint hex (width : nat) (n : N) : text :=
  match width with
  | O => []
  | S w => hex w (n / 16)%N ++ [hex_digit (n mod 16)%N]
  end.

(** [repr(s)] of a string.  The quote is the double quote when the string
    holds a single quote and no double quote, else the single quote; the
    quote and the backslash are escaped, tab, newline and carriage return
    are written [\t], [\n], [\r], the other control characters of ASCII
    in hexadecimal; a code point above ASCII stays when [isprintable] says
    so (the Unicode tables decide) and is written in hexadecimal
    otherwise. *)
Definition repr_quote (s : text) : N :=
  if existsb (N.eqb 39) s && negb (existsb (N.eqb 34) s) then 34%N else 39%N.

Definition repr_char (isprintable : N -> bool) (quote c : N) : text :=
  (if (c =? quote) || (c =? 92) then [92; c]
   else if c =? 9 then [92; 116]
   else if c =? 10 then [92; 110]
   else if c =? 13 then [92; 114]
   else if (c <? 32) || (c =? 127) then [92; 120] ++ hex 2 c
   else if c <? 127 then [c]
   else if isprintable c then [c]
   else if c <=? 255 then [92; 120] ++ hex 2 c
   else if c <=? 65535 then [92; 117] ++ hex 4 c
   else [92; 85] ++ hex 8 c)%N.

Definition str_repr (isprintable : N -> bool) (s : text) : text :=
  let quote := repr_quote s in
  [quote] ++ flat_map (repr_char isprintable quote) s ++ [quote].

(* ===================================================================== *)
(** ** Regular expressions: the fragment of [re] the filter uses *)
(* ===================================================================== *)

Module Re.

(** Patterns.  [Cls p] matches one code point satisfying [p] (a literal, a
  set, or [.] under DOTALL); [Star] and [Opt] carry the greedy flag. *)
Inductive regex : Type :=
| Eps
| Cls (p : N -> bool)
| Cat (r1 r2 : regex)
| Opt (greedy : bool) (r : regex)
| Star (greedy : bool) (r : regex).

Definition orelse {A} (x y : option A) : option A :=
match x with Some _ => x | None => y end.

(** Backtracking matcher in continuation style: the first way, in the
  engine's priority order, of matching [r] at the head of [s] such that
  the continuation accepts what is left.  An iteration of a [Star] that
  consumes nothing is cut, as the engine does. *)
Fixpoint rmatch (r : regex) (s : text) (k : text -> option text)
{struct r} : option text :=
match r with
| Eps => k s
| Cls p =>
    match s with
    | c :: s' => if p c then k s' else None
    | [] => None
    end
| Cat r1 r2 => rmatch r1 s (fun s1 => rmatch r2 s1 k)
| Opt greedy r1 =>
    if greedy then orelse (rmatch r1 s k) (k s)
    else orelse (k s) (rmatch r1 s k)
| Star greedy r1 =>
    (fix loop (n : nat) (s : text) {struct n} : option text :=
       match n with
       | O => k s
       | S n' =>
           let more :=
             rmatch r1 s
               (fun s1 => if length s1 <? length s then loop n' s1 else None) in
           if greedy then orelse more (k s) else orelse (k s) more
       end) (length s) s
end.

(** [re.sub(r, repl, s)] with a constant replacement: scan from the left,
  replace each match, copy the code points in between.  After an empty
  match the next match at the same position must not be empty
  ([must_advance]). *)
Fixpoint sub_from (fuel : nat) (r : regex) (repl : text)
(must_advance : bool) (s : text) : text :=
match fuel with
| O => s
| S fuel' =>
    match rmatch r s
            (fun rest =>
               if must_advance && (length rest =? length s) then None
               else Some rest) with
    | Some rest =>
        repl ++ sub_from fuel' r repl (length rest =? length s) rest
    | None =>
        match s with
        | [] => []
        | c :: s' => c :: sub_from fuel' r repl false s'
        end
    end
end.

Definition sub (r : regex) (repl : text) (s : text) : text :=
sub_from (2 * length s + 2) r repl false s.

(** Pattern builders. *)
Definition chr (c : N) : regex := Cls (N.eqb c).
Definition any : regex := Cls (fun _ => true).

Fixpoint seq (rs : list regex) : regex :=
match rs with
| [] => Eps
| [r] => r
| r :: rs' => Cat r (seq rs')
end.

(** A literal, case-sensitive. *)
Definition lit (s : string) : regex := seq (List.map chr (py s)).

(** Matching under [(?i)].  For a lower-case ASCII letter [lo] of the
  pattern the engine accepts a code point [c] when the simple lower case
  of [c] is [lo] or one of the extra equivalents of [lo]: these are [lo],
  its capital, U+0130 for i, U+212A for k, and the equivalents U+0131 of
  i and U+017F of s.  Other pattern characters are not cased. *)
Definition is_ascii_letter (c : N) : bool :=
(((65 <=? c) && (c <=? 90)) || ((97 <=? c) && (c <=? 122)))%N.

Definition ascii_lower (c : N) : N :=
(if (65 <=? c) && (c <=? 90) then c + 32 else c)%N.

Definition ci_accepts (lo c : N) : bool :=
((c =? lo) || (c =? lo - 32)
 || ((lo =? 105) && ((c =? 304) || (c =? 305)))
 || ((lo =? 115) && (c =? 383))
 || ((lo =? 107) && (c =? 8490)))%N.

Definition ci_chr (p : N) : regex :=
if is_ascii_letter p then Cls (ci_accepts (ascii_lower p)) else chr p.

(** A literal under [(?i)]. *)
Definition ci_lit (s : string) : regex := seq (List.map ci_chr (py s)).

End Re.

(* ===================================================================== *)
(** ** Python values, dictionaries and exceptions *)
(* ===================================================================== *)

(** Exceptions, with the message [str(e)] gives; for a [KeyError] the
    key. *)
Inductive PyExn : Type :=
| KeyError (key : text)
| IndexError (msg : text)
| ValueError (msg : text)
| TypeError (msg : text)
| AttributeError (msg : text)
| JSONDecodeError (msg : text)
| OtherError (msg : text).

(** Results of fallible pure code: [inl] is a raised exception. *)
Definition result (A : Type) : Type := (PyExn + A)%type.

(** The values the gateway inspects: [None], booleans, strings, lists and
    dictionaries (insertion-ordered, string keys).  Any other object
    (a number, a library object) is [VOther]: the code can only observe the
    name of its type, its [str()], its truth value, and what [json.dumps]
    does with it ([ValueError] for a float that is [nan] or infinite,
    [TypeError] for an object that has no JSON form). *)
#[warnings="-register-all"]
Inductive PyVal : Type :=
| VNone
| VBool (b : bool)
| VStr (s : text)
| VList (l : list PyVal)
| VDict (d : list (text * PyVal))
| VOther (type_ : text) (str_ : text) (truth : bool) (json : result unit).

(** Truth value testing: [if v], [not v], [a and b]. *)
Definition truthy (v : PyVal) : bool :=
  match v with
  | VNone => false
  | VBool b => b
  | VStr s => negb (text_eqb s [])
  | VList l => match l with [] => false | _ => true end
  | VDict d => match d with [] => false | _ => true end
  | VOther _ _ t _ => t
  end.

(** [type(v).__name__] *)
Definition type_name (v : PyVal) : text :=
  match v with
  | VNone => py "NoneType"
  | VBool _ => py "bool"
  | VStr _ => py "str"
  | VList _ => py "list"
  | VDict _ => py "dict"
  | VOther t _ _ _ => t
  end.

(** What [json.dumps(v, allow_nan=False)] raises, if anything: the
    encoder walks lists and dictionaries in order and stops at the first
    object it cannot write. *)
Fixpoint json_check (v : PyVal) : result unit :=
  match v with
  | VNone | VBool _ | VStr _ => inr tt
  | VList l =>
      (fix items (l : list PyVal) : result unit :=
         match l with
         | [] => inr tt
         | x :: l' =>
             match json_check x with
             | inl e => inl e
             | inr _ => items l'
             end
         end) l
  | VDict d =>
      (fix items (d : list (text * PyVal)) : result unit :=
         match d with
         | [] => inr tt
         | kv :: d' =>
             match json_check (snd kv) with
             | inl e => inl e
             | inr _ => items d'
             end
         end) d
  | VOther _ _ _ json => json
  end.

(** [isinstance(v, str)], [isinstance(v, dict)], [isinstance(v, list)] are
    the constructor tests [VStr], [VDict], [VList]. *)

(** [v == "literal"] *)
Definition eq_str (v : PyVal) (s : text) : bool :=
  match v with VStr t => text_eqb t s | _ => false end.

Module PyDict.
Section Dict.
Variable V : Type.

Definition t := list (text * V).

(** [d.get(k)] as an option; [None] when the key is absent. *)
Fixpoint get (d : t) (k : text) : option V :=
  match d with
  | [] => None
  | (k', v) :: d' => if text_eqb k' k then Some v else get d' k
  end.

(** [d[k] = v]: overwrite in place, or append a new key at the end. *)
Fixpoint set (d : t) (k : text) (v : V) : t :=
  match d with
  | [] => [(k, v)]
  | (k', v') :: d' =>
      if text_eqb k' k then (k', v) :: d' else (k', v') :: set d' k v
  end.

(** [k in d] *)
Definition mem (d : t) (k : text) : bool :=
  match get d k with Some _ => true | None => false end.

(** [d.get(k, default)] *)
Definition get_default (d : t) (k : text) (default : V) : V :=
  match get d k with Some v => v | None => default end.

(** [list(d.keys())], [d.items()] is [d] itself, [len(d)] is its length. *)
Definition keys (d : t) : list text := List.map fst d.
End Dict.
End PyDict.

(** [str(e)].  For a [KeyError] it is the [repr] of the key. *)
Definition exn_message (isprintable : N -> bool) (e : PyExn) : text :=
  match e with
  | KeyError k => str_repr isprintable k
  | IndexError m | ValueError m | TypeError m | AttributeError m
  | JSONDecodeError m | OtherError m => m
  end.

(** What a coroutine ends with when it does not return: an exception, or
    the cancellation of its task.  [asyncio.CancelledError] derives from
    [BaseException], not from [Exception]. *)
Inductive Raised : Type :=
| Exc (e : PyExn)
| Cancelled (msg : text).

Definition outcome (A : Type) : Type := (Raised + A)%type.

(** A failure of synchronous code, seen from the coroutine that runs it. *)
Definition raised {A} (r : result A) : outcome A :=
  match r with
  | inl e => inl (Exc e)
  | inr x => inr x
  end.

(** [JSONResponse(content)] renders its content when it is built: the
    response exists only if the content has a JSON form. *)
Definition json_response {A} (content : PyVal) (response : A) : result A :=
  match json_check content with
  | inl e => inl e
  | inr _ => inr response
  end.

(** [d[k]] *)
Definition subscript (d : list (text * PyVal)) (k : string) : result PyVal :=
  match PyDict.get d (py k) with
  | Some v => inr v
  | None => inl (KeyError (py k))
  end.

(** [a, b = parts] *)
Definition unpack2 (parts : list text) : result (text * text) :=
  match parts with
  | [a; b] => inr (a, b)
  | _ =>
      inl (ValueError
             (py "not enough values to unpack (expected 2, got 1)"))
  end.

(* ===================================================================== *)
(** ** remove_reasoning_thoughts *)
(* ===================================================================== *)

Import Re.

(** The patterns, in the order of the source.  All are compiled with
    DOTALL, so [.] is [any]; those starting with [(?i)] use [ci_lit]. *)
Definition apostrophe : regex :=
  Cls (fun c => N.eqb c 39 || N.eqb c 8217).

Definition not_star_nl : regex :=
  Cls (fun c => negb (N.eqb c 42 || N.eqb c newline)).

Definition patterns : list regex :=
  [ (* <think>.*?</think> *)
    seq [lit "<think>"; Star false any; lit "</think>"];
    (* <thinking>.*?</thinking> *)
    seq [lit "<thinking>"; Star false any; lit "</thinking>"];
    (* \[Reasoning\].*?\[/Reasoning\] *)
    seq [lit "[Reasoning]"; Star false any; lit "[/Reasoning]"];
    (* \[Thoughts?\].*?\[/Thoughts?\] *)
    seq [lit "[Thought"; Opt true (lit "s"); lit "]"; Star false any;
         lit "[/Thought"; Opt true (lit "s"); lit "]"];
    (* (?i)\*\*Thought:?[^*\n]* *)
    seq [ci_lit "**Thought"; Opt true (lit ":"); Star true not_star_nl];
    (* (?i)\*Reasoning:?[^*\n]* *)
    seq [ci_lit "*Reasoning"; Opt true (lit ":"); Star true not_star_nl];
    (* (?i)(?:let['’]s reason step by step:).* *)
    seq [ci_lit "let"; apostrophe; ci_lit "s reason step by step:";
         Star true any];
    (* (?i)(?:let['’]s think step by step:).* *)
    seq [ci_lit "let"; apostrophe; ci_lit "s think step by step:";
         Star true any];
    (* (?i)(?:thinking process:).* *)
    seq [ci_lit "thinking process:"; Star true any] ].

(** \n{2,} *)
Definition newlines2 : regex :=
  seq [chr newline; chr newline; Star true (chr newline)].

(** The filter on a string: every pattern is removed in turn, runs of two
    or more newlines become two, and the result is stripped. *)
Definition strip_reasoning (s : text) : text :=
  let cleaned_text :=
    fold_left (fun cleaned pattern => Re.sub pattern [] cleaned) patterns s in
  str_strip (Re.sub newlines2 [newline; newline] cleaned_text).

(** [remove_reasoning_thoughts(text)]: anything that is not a string is
    returned unchanged. *)
Definition remove_reasoning_thoughts (v : PyVal) : PyVal :=
  match v with
  | VStr s => VStr (strip_reasoning s)
  | _ => v
  end.

(* ===================================================================== *)
(** ** The gateway *)
(* ===================================================================== *)

(** What a tool session reports for one tool. *)
Record Tool : Type := {
  tool_name : text;
  tool_description : PyVal;
  inputSchema : PyVal
}.

(** The [structuredContent] of a tool result as the dispatcher sees it: the
    attribute may be missing, may be [None], or may hold a mapping. *)
Inductive StructuredContent : Type :=
| Missing
| IsNone
| Mapping (d : list (text * PyVal)).

(** A tool result: its structured content and its [str()]. *)
Record ToolResult : Type := {
  structuredContent : StructuredContent;
  result_repr : text
}.

(** One entry of [list_all_tools]. *)
Record ToolInfo : Type := {
  ti_server : text;
  ti_tool_name : text;
  ti_description : PyVal
}.

(** One entry of the function-calling schema:
    [{"type": "function", "function": {name, description, parameters}}]. *)
Record FunctionSpec : Type := {
  fn_name : text;
  fn_description : PyVal;
  fn_parameters : PyVal
}.

(** A chat turn is a dictionary ([role], [content], ...). *)
Definition ChatTurn : Type := list (text * PyVal).

(** The keyword arguments of [chat.completions.create]. *)
Record CompletionRequest : Type := {
  rq_model : text;
  rq_messages : list ChatTurn;
  rq_tools : option (list FunctionSpec);
  rq_tool_choice : option text
}.

(** [tool_call.function.name], [tool_call.function.arguments]. *)
Record ToolCall : Type := {
  function_name : text;
  function_arguments : text
}.

(** [choice.message] *)
Record Message : Type := {
  content : PyVal;
  tool_calls : option (list ToolCall)
}.

Record Choice : Type := { message : Message }.

Record Completion : Type := { choices : list Choice }.

(** The dictionary [{"text": ..., "tool_used": ...}] of [process_query]. *)
Record DispatchResult : Type := {
  text_ : PyVal;
  tool_used : option text
}.

(** One server entry of the uploaded configuration.  The entry has a
    string [name]; the other keys may be absent ([None] here), and a
    subscript on an absent key raises [KeyError]. *)
Record ServerSpec : Type := {
  srv_name : text;
  srv_command : option PyVal;
  srv_args : option PyVal;
  srv_cwd : option PyVal
}.

(** The body of [POST /chat]. *)
Record ChatRequest : Type := {
  req_messages : list ChatTurn;
  req_provider : text;
  req_model : text
}.

(** The JSON responses of the handlers. *)
Inductive HttpResponse : Type :=
| ChatOk (content_ : PyVal) (tool_used_ : option text)
| ServersOk (servers : list (text * PyVal))
| ServerError (error : text).

(** [tool_calls] in a boolean context: [None] and the empty list are false. *)
Definition has_tool_calls (tc : option (list ToolCall)) : bool :=
  match tc with
  | Some (_ :: _) => true
  | _ => false
  end.

(** [f"{server}:{tool}"] *)
Definition namespaced (server tool : text) : text :=
  server ++ py ":" ++ tool.

(** [full_tool_name.split(":", 1)] unpacked into two names. *)
Definition parse_namespaced (full_tool_name : text) : result (text * text) :=
  unpack2 (str_split colon 1 full_tool_name).

Definition dquote : text := [34%N].
Definition indent12 : text := py "            ".

(** The f-string of the second pass, with its line breaks and margins. *)
Definition final_prompt_text (asked returned : text) : text :=
  [newline] ++ indent12 ++ py "The user asked: " ++ dquote ++ asked ++ dquote
  ++ [newline] ++ indent12 ++ py "The tool returned: " ++ dquote ++ returned
  ++ dquote
  ++ [newline] ++ indent12 ++ py "Please summarize and respond naturally."
  ++ [newline] ++ indent12.

Definition phase1_instruction : text :=
  py "Before answering, think step by step and explain: "
  ++ py "Do you need to call a tool? Which one and why? "
  ++ py "Then either call the tool or answer directly.".

(** [xs[-1]] *)
Definition last_item {A} (xs : list A) : result A :=
  match rev xs with
  | x :: _ => inr x
  | [] => inl (IndexError (py "list index out of range"))
  end.

(** [xs[0]] *)
Definition first_item {A} (xs : list A) : result A :=
  match xs with
  | x :: _ => inr x
  | [] => inl (IndexError (py "list index out of range"))
  end.

(** [block.get(key)] on a block of a structured message: only a
    dictionary has [get]. *)
Definition block_get (block : PyVal) (key : string) (default : PyVal)
  : result PyVal :=
  match block with
  | VDict d => inr (PyDict.get_default d (py key) default)
  | _ =>
      inl (AttributeError
             (py "'" ++ type_name block
              ++ py "' object has no attribute 'get'"))
  end.

(** The reasoning blocks of a block list: the [text] of every block whose
    [type] is reasoning, thinking or system. *)
Fixpoint reasoning_blocks (blocks : list PyVal) : result (list PyVal) :=
  match blocks with
  | [] => inr []
  | block :: rest =>
      match block_get block "type" VNone with
      | inl e => inl e
      | inr ty =>
          let keep := eq_str ty (py "reasoning") || eq_str ty (py "thinking")
                      || eq_str ty (py "system") in
          match (if keep then block_get block "text" (VStr [])
                 else inr VNone) with
          | inl e => inl e
          | inr txt =>
              match reasoning_blocks rest with
              | inl e => inl e
              | inr more => inr (if keep then txt :: more else more)
              end
          end
      end
  end.

(** ["\n".join(parts)]: every part has to be a string; [index] is the
    position of the head of [parts] in the list that is joined. *)
Fixpoint all_str_from (index : nat) (parts : list PyVal)
  : result (list text) :=
  match parts with
  | [] => inr []
  | VStr s :: rest =>
      match all_str_from (S index) rest with
      | inl e => inl e
      | inr ss => inr (s :: ss)
      end
  | v :: _ =>
      inl (TypeError
             (py "sequence item " ++ py_int index
              ++ py ": expected str instance, " ++ type_name v
              ++ py " found"))
  end.

Definition all_str (parts : list PyVal) : result (list text) :=
  all_str_from 0 parts.

(** [next((block.get("text") for block in message
           if block.get("type") == "output_text"), message)] *)
Fixpoint first_output_text (blocks : list PyVal) (default : PyVal)
  : result PyVal :=
  match blocks with
  | [] => inr default
  | block :: rest =>
      match block_get block "type" VNone with
      | inl e => inl e
      | inr ty =>
          if eq_str ty (py "output_text") then block_get block "text" VNone
          else first_output_text rest default
      end
  end.

(** The normalisation step of [chat_endpoint]: from the [text] of the
    dispatch result to the pair (message, reasoning). *)
Definition normalize (message : PyVal) : result (PyVal * PyVal) :=
  match message with
  | VDict d =>
      let reasoning := PyDict.get_default d (py "reasoning_content") VNone in
      let message' := PyDict.get_default d (py "content") (VStr []) in
      inr (message', reasoning)
  | VList blocks =>
      match reasoning_blocks blocks with
      | inl e => inl e
      | inr rb =>
          match all_str rb with
          | inl e => inl e
          | inr parts =>
              let reasoning := VStr (str_join [newline] parts) in
              match first_output_text blocks message with
              | inl e => inl e
              | inr message' => inr (message', reasoning)
              end
          end
      end
  | _ => inr (message, VNone)
  end.

(** The outside world.  Its state [W], the connected sessions and the chat
    clients are opaque; the operations on them are the collaborators'. *)
Class Collaborators : Type := {
  W : Type;
  Session : Type;
  Client : Type;
  (** [StdioServerParameters], [stdio_client], [ClientSession] and
      [session.initialize()] for one server: spawn, connect and
      hand-shake.  It is awaited, so it may also end in a cancellation. *)
  open_session : PyVal -> PyVal -> PyVal -> W -> outcome Session * W;
  (** [await session.list_tools()], the [tools] of the response. *)
  session_list_tools : Session -> W -> outcome (list Tool) * W;
  (** [await session.call_tool(name, args)] *)
  session_call_tool : Session -> text -> PyVal -> W -> outcome ToolResult * W;
  (** [chat_client.chat.completions.create(...)], a plain call. *)
  completions_create :
    Client -> CompletionRequest -> W -> result Completion * W;
  (** [json.loads] *)
  json_loads : text -> result PyVal;
  (** [str()] of a list or a dictionary *)
  repr_container : PyVal -> text;
  (** [str.isprintable] on a code point above ASCII *)
  str_isprintable : N -> bool;
  (** [LLMAdapter(provider, model).client] *)
  llm_adapter_client : text -> text -> W -> result Client * W;
  (** [supported_models[provider][model]["model_id"]] *)
  supported_model_id : text -> text -> result text
}.

Section Gateway.

Context {env : Collaborators}.

(** [str(v)], as the f-strings format a value. *)
Definition py_str (v : PyVal) : text :=
  match v with
  | VNone => py "None"
  | VBool true => py "True"
  | VBool false => py "False"
  | VStr s => s
  | VOther _ r _ _ => r
  | VList _ | VDict _ => repr_container v
  end.

(** [str(e)] *)
Definition exn_str (e : PyExn) : text := exn_message str_isprintable e.

(** The state of an [MCPClient]: [sessions] and [active_servers]. *)
Record MCPClient : Type := {
  sessions : list (text * Session);
  active_servers : list (text * PyVal)
}.

(** The calls made to the collaborators, in order. *)
Inductive Event : Type :=
| EvConnect (name : text) (command args cwd : PyVal)
| EvListTools (session : Session)
| EvCallTool (session : Session) (tool : text) (args : PyVal)
| EvChat (client : Client) (rq : CompletionRequest).

(** Program state: the world, the global [mcp_client], the call log. *)
Record St : Type := {
  world : W;
  mcp_client : MCPClient;
  log : list Event
}.

(** Coroutines: they read and write the state, and end with a value, an
    exception or a cancellation. *)
Definition M (A : Type) : Type := St -> outcome A * St.

Definition ret {A} (x : A) : M A := fun st => (inr x, st).

Definition raise {A} (e : PyExn) : M A := fun st => (inl (Exc e), st).

Definition bind {A B} (m : M A) (k : A -> M B) : M B :=
  fun st =>
    match m st with
    | (inr x, st') => k x st'
    | (inl e, st') => (inl e, st')
    end.

(** [try: m except Exception as e: handler e].  The handler runs for an
    exception; a cancellation is not an [Exception] and goes on to the
    caller. *)
Definition try_except {A} (m : M A) (handler : PyExn -> M A) : M A :=
  fun st =>
    match m st with
    | (inl (Exc e), st') => handler e st'
    | r => r
    end.

Definition lift {A} (r : result A) : M A := fun st => (raised r, st).

Definition self : M MCPClient := fun st => (inr (mcp_client st), st).

(** The state with another world. *)
Definition with_world (st : St) (w : W) : St :=
  {| world := w; mcp_client := mcp_client st; log := log st |}.

(** The state after one more call to a collaborator. *)
Definition after_call (st : St) (ev : Event) (w : W) : St :=
  {| world := w; mcp_client := mcp_client st; log := log st ++ [ev] |}.

(** A plain call to a collaborator: log it, run it on the world. *)
Definition call {A} (ev : Event) (op : W -> result A * W) : M A :=
  fun st =>
    let (r, w) := op (world st) in
    (raised r, after_call st ev w).

(** An awaited call to a collaborator. *)
Definition await {A} (ev : Event) (op : W -> outcome A * W) : M A :=
  fun st =>
    let (r, w) := op (world st) in
    (r, after_call st ev w).

Notation "x <- m ;; k" := (bind m (fun x => k))
  (at level 61, m at next level, right associativity).

(* ------------------------------------------------------------------- *)
(** *** MCPClient.connect_to_server *)

Definition connect_to_server (name : text) (command args cwd : PyVal)
  : M unit :=
  session <- await (EvConnect name command args cwd)
               (open_session command args cwd) ;;
  fun st =>
    let c := mcp_client st in
    (inr tt,
     {| world := world st;
        mcp_client :=
          {| sessions := PyDict.set (sessions c) name session;
             active_servers :=
               PyDict.set (active_servers c) name (VBool true) |};
        log := log st |}).

(** [self.active_servers.get(name, False)] in a boolean context *)
Definition is_active (c : MCPClient) (name : text) : bool :=
  truthy (PyDict.get_default (active_servers c) name (VBool false)).

(* ------------------------------------------------------------------- *)
(** *** MCPClient.list_all_tools *)

Definition describe (name : text) (tool : Tool) : ToolInfo :=
  {| ti_server := name;
     ti_tool_name := tool_name tool;
     ti_description := tool_description tool |}.

(** The loop over [self.sessions.items()], [tools] being the list built
    so far. *)
Fixpoint list_all_tools_loop (c : MCPClient)
  (items : list (text * Session)) (tools : list ToolInfo)
  : M (list ToolInfo) :=
  match items with
  | [] => ret tools
  | (name, session) :: rest =>
      if negb (is_active c name) then list_all_tools_loop c rest tools
      else
        response <- await (EvListTools session)
                      (session_list_tools session) ;;
        list_all_tools_loop c rest
          (tools ++ List.map (describe name) response)
  end.

Definition list_all_tools : M (list ToolInfo) :=
  c <- self ;;
  list_all_tools_loop c (sessions c) [].

(* ------------------------------------------------------------------- *)
(** *** MCPClient.process_query *)

Definition function_spec (name : text) (tool : Tool) : FunctionSpec :=
  {| fn_name := namespaced name (tool_name tool);
     fn_description := tool_description tool;
     fn_parameters := inputSchema tool |}.

(** The aggregation loop at the head of [process_query]. *)
Fixpoint available_tools_loop (c : MCPClient)
  (items : list (text * Session)) (available_tools : list FunctionSpec)
  : M (list FunctionSpec) :=
  match items with
  | [] => ret available_tools
  | (name, session) :: rest =>
      if negb (is_active c name) then
        available_tools_loop c rest available_tools
      else
        response <- await (EvListTools session)
                      (session_list_tools session) ;;
        available_tools_loop c rest
          (available_tools ++ List.map (function_spec name) response)
  end.

Definition system_turn : ChatTurn :=
  [(py "role", VStr (py "system"));
   (py "content", VStr phase1_instruction)].

(** The first request: the caller's turns, the instruction, the schema. *)
Definition phase1_request (model_id : text) (messages : list ChatTurn)
  (available_tools : list FunctionSpec) : CompletionRequest :=
  {| rq_model := model_id;
     rq_messages := messages ++ [system_turn];
     rq_tools := Some available_tools;
     rq_tool_choice := Some (py "auto") |}.

(** The second request: one user turn holding the prompt. *)
Definition phase2_request (model_id : text) (final_prompt : text)
  : CompletionRequest :=
  {| rq_model := model_id;
     rq_messages :=
       [[(py "role", VStr (py "user"));
         (py "content", VStr final_prompt)]];
     rq_tools := None;
     rq_tool_choice := None |}.

(** The tool result itself, as a value: an object of the library. *)
Definition raw_result (tool_result : ToolResult) : PyVal :=
  VOther (py "CallToolResult") (result_repr tool_result) true
    (inl (TypeError
            (py "Object of type CallToolResult is not JSON serializable"))).

(** [tool_result.structuredContent["result"]] if the attribute exists and
    has the key [result], else the tool result itself.  The test
    ["result" in None] raises. *)
Definition extract_result (tool_result : ToolResult) : result PyVal :=
  match structuredContent tool_result with
  | Missing => inr (raw_result tool_result)
  | IsNone =>
      inl (TypeError (py "argument of type 'NoneType' is not iterable"))
  | Mapping d =>
      match PyDict.get d (py "result") with
      | Some v => inr v
      | None => inr (raw_result tool_result)
      end
  end.

(** [final_prompt], from the last turn of the caller and the result. *)
Definition final_prompt_of (messages : list ChatTurn) (result_ : PyVal)
  : result text :=
  match last_item messages with
  | inl e => inl e
  | inr turn =>
      match subscript turn "content" with
      | inl e => inl e
      | inr asked =>
          inr (final_prompt_text (py_str asked) (py_str result_))
      end
  end.

Definition no_response : DispatchResult :=
  {| text_ := VStr (py "No response from model."); tool_used := None |}.

Definition not_connected (server_name : text) : DispatchResult :=
  {| text_ := VStr (py "Error: server '" ++ server_name
                    ++ py "' not connected.");
     tool_used := None |}.

(** Case 2 of [process_query]: the first tool call of the reply. *)
Definition invoke_tool (chat_client : Client) (model_id : text)
  (messages : list ChatTurn) (tool_call : ToolCall) : M DispatchResult :=
  let full_tool_name := function_name tool_call in
  names <- lift (parse_namespaced full_tool_name) ;;
  let server_name := fst names in
  let tool_name := snd names in
  tool_args <- lift (json_loads (function_arguments tool_call)) ;;
  c <- self ;;
  match PyDict.get (sessions c) server_name with
  | None => ret (not_connected server_name)
  | Some session =>
      tool_result <- await (EvCallTool session tool_name tool_args)
                       (session_call_tool session tool_name tool_args) ;;
      result_ <- lift (extract_result tool_result) ;;
      final_prompt <- lift (final_prompt_of messages result_) ;;
      let rq := phase2_request model_id final_prompt in
      final_completion <- call (EvChat chat_client rq)
                            (completions_create chat_client rq) ;;
      choice <- lift (first_item (choices final_completion)) ;;
      let final_answer := content (message choice) in
      ret {| text_ := final_answer;
             tool_used := Some (namespaced server_name tool_name) |}
  end.

(** The branch on the first reply [msg]. *)
Definition dispatch_reply (chat_client : Client) (model_id : text)
  (messages : list ChatTurn) (msg : Message) : M DispatchResult :=
  if truthy (content msg) && negb (has_tool_calls (tool_calls msg)) then
    ret {| text_ := content msg; tool_used := None |}
  else
    match tool_calls msg with
    | Some (tool_call :: _) =>
        invoke_tool chat_client model_id messages tool_call
    | _ => ret no_response
    end.

(** The head of [process_query]: build the schema, make the first call,
    take [completion.choices[0].message]. *)
Definition phase1 (chat_client : Client) (model_id : text)
  (messages : list ChatTurn) : M Message :=
  c <- self ;;
  available_tools <- available_tools_loop c (sessions c) [] ;;
  let rq := phase1_request model_id messages available_tools in
  completion <- call (EvChat chat_client rq)
                  (completions_create chat_client rq) ;;
  choice <- lift (first_item (choices completion)) ;;
  ret (message choice).

Definition process_query (chat_client : Client) (model_id : text)
  (messages : list ChatTurn) : M DispatchResult :=
  msg <- phase1 chat_client model_id messages ;;
  dispatch_reply chat_client model_id messages msg.

(* ------------------------------------------------------------------- *)
(** *** The handlers *)

(** [None] or a string, as a value. *)
Definition opt_str (v : option text) : PyVal :=
  match v with
  | Some s => VStr s
  | None => VNone
  end.

(** The content of the response of [chat_endpoint]. *)
Definition chat_payload (final_content : PyVal) (used : option text)
  : PyVal :=
  VDict
    [(py "choices",
      VList [VDict [(py "message",
                     VDict [(py "role", VStr (py "assistant"));
                            (py "content", final_content)])]]);
     (py "tool_used", opt_str used)].

(** The tail of [chat_endpoint]: normalise the [text] of the dispatch
    result, filter it, build the response. *)
Definition respond (response : DispatchResult) : result HttpResponse :=
  match normalize (text_ response) with
  | inl e => inl e
  | inr (message, reasoning) =>
      let final_content := remove_reasoning_thoughts message in
      json_response (chat_payload final_content (tool_used response))
        (ChatOk final_content (tool_used response))
  end.

(** [LLMAdapter(provider=..., model=...)] reads the model table and
    builds the client; it is not a call of the model. *)
Definition llm_adapter (provider model : text) : M Client :=
  fun st =>
    let (r, w) := llm_adapter_client provider model (world st) in
    (raised r, with_world st w).

(** [POST /chat] *)
Definition chat_endpoint (req : ChatRequest) : M HttpResponse :=
  try_except
    (chat_client <- llm_adapter (req_provider req) (req_model req) ;;
     model_id <- lift (supported_model_id (req_provider req)
                         (req_model req)) ;;
     response <- process_query chat_client model_id (req_messages req) ;;
     lift (respond response))
    (fun e => ret (ServerError (exn_str e))).

(** [srv[key]] for a key that may be absent. *)
Definition srv_item (key : string) (field : option PyVal) : result PyVal :=
  match field with
  | Some v => inr v
  | None => inl (KeyError (py key))
  end.

Definition running_entry (cwd : PyVal) : PyVal :=
  VDict [(py "status", VStr (py "running"));
         (py "active", VBool true);
         (py "cwd", cwd)].

Definition error_entry (e : PyExn) : PyVal :=
  VDict [(py "status", VStr (py "error: " ++ exn_str e));
         (py "active", VBool false)].

(** The body of the [try] of one iteration of [upload_config]: connect,
    then compute the entry of a running server. *)
Definition start_server (srv : ServerSpec) : M PyVal :=
  command <- lift (srv_item "command" (srv_command srv)) ;;
  args <- lift (srv_item "args" (srv_args srv)) ;;
  cwd <- lift (srv_item "cwd" (srv_cwd srv)) ;;
  _ <- connect_to_server (srv_name srv) command args cwd ;;
  cwd' <- lift (srv_item "cwd" (srv_cwd srv)) ;;
  ret (running_entry cwd').

(** The loop of [upload_config] over the servers of the configuration;
    [active_servers] is the report built so far. *)
Fixpoint upload_loop (servers : list ServerSpec)
  (active_servers : list (text * PyVal)) : M (list (text * PyVal)) :=
  match servers with
  | [] => ret active_servers
  | srv :: rest =>
      entry <- try_except (start_server srv)
                 (fun e => ret (error_entry e)) ;;
      upload_loop rest (PyDict.set active_servers (srv_name srv) entry)
  end.

(** The content of the responses that list servers. *)
Definition servers_payload (servers : list (text * PyVal)) : PyVal :=
  VDict [(py "servers", VDict servers)].

(** [POST /upload-config], from the parsed list of servers on. *)
Definition upload_config (servers : list ServerSpec) : M HttpResponse :=
  try_except
    (active_servers <- upload_loop servers [] ;;
     lift (json_response (servers_payload active_servers)
             (ServersOk active_servers)))
    (fun e => ret (ServerError (exn_str e))).

End Gateway.

(* ===================================================================== *)
(** ** Observations on the call log, the client and the report *)
(* ===================================================================== *)

Section Observations.

Context {env : Collaborators}.

Definition is_chat (ev : Event) : bool :=
  match ev with EvChat _ _ => true | _ => false end.

Definition is_call_tool (ev : Event) : bool :=
  match ev with EvCallTool _ _ _ => true | _ => false end.

Definition is_list_tools (ev : Event) : bool :=
  match ev with EvListTools _ => true | _ => false end.

(** How often the model was called. *)
Definition chat_calls (l : list Event) : nat :=
  List.length (filter is_chat l).

(** The tool invocations, in order. *)
Definition tool_invocations (l : list Event) : list Event :=
  filter is_call_tool l.

(** The calls of an enumeration: tool-catalogue queries only. *)
Definition schema_queries (evs : list Event) : Prop :=
  Forall (fun ev => is_list_tools ev = true) evs.

(** Every connected server is flagged active: the state
    [connect_to_server] maintains. *)
Definition consistent (c : MCPClient) : Prop :=
  forall name, PyDict.mem (sessions c) name = true ->
               is_active c name = true.






(** A batch is cut short when the start of one of its servers is
    cancelled; the servers after that one are not started. *)
Fixpoint batch_cancelled (servers : list ServerSpec) (st : St) : bool :=
  match servers with
  | [] => false
  | srv :: rest =>
      match start_server srv st with
      | (inl (Cancelled _), _) => true
      | (_, st') => batch_cancelled rest st'
      end
  end.




End Observations.

(* ===================================================================== *)
(** ** A small concrete world *)
(* ===================================================================== *)

Module Toy.

(** The replies the model will give, in order, and the sessions whose
    server has crashed since it was started. *)
Record World : Type := {
  script : list Completion;
  crashed : list N
}.

Definition tool_a : Tool :=
  {| tool_name := py "a";
     tool_description := VStr (py "the tool a");
     inputSchema := VDict [] |}.

Definition four : ToolResult :=
  {| structuredContent := Mapping [(py "result", VStr (py "4"))];
     result_repr := py "CallToolResult" |}.

(** A server starts when its command is a non-empty string, except for
    the command [false], which exits at once: the transport then cancels
    the task that waits for it.  A crashed session fails every request; the
    model follows the script; the JSON parser knows the empty object
    only. *)
Definition toy : Collaborators :=
  {| W := World;
     Session := N;
     Client := unit;
     open_session := fun command _ _ w =>
       match command with
       | VStr (c :: s) =>
           if text_eqb (c :: s) (py "false")
           then (inl (Cancelled (py "Cancelled by cancel scope")), w)
           else (inr (N.of_nat (List.length (c :: s))), w)
       | _ => (inl (Exc (OtherError (py "spawn failed"))), w)
       end;
     session_list_tools := fun s w =>
       if existsb (N.eqb s) (crashed w)
       then (inl (Exc (OtherError (py "session closed"))), w)
       else (inr [tool_a], w);
     session_call_tool := fun s _ _ w =>
       if existsb (N.eqb s) (crashed w)
       then (inl (Exc (OtherError (py "session closed"))), w)
       else (inr four, w);
     completions_create := fun _ _ w =>
       match script w with
       | [] => (inl (OtherError (py "provider error")), w)
       | r :: rest => (inr r, {| script := rest; crashed := crashed w |})
       end;
     json_loads := fun t =>
       if text_eqb t (py "{}") then inr (VDict [])
       else inl (JSONDecodeError
                   (py "Expecting value: line 1 column 1 (char 0)"));
     repr_container := fun _ => py "[...]";
     str_isprintable := fun _ => true;
     llm_adapter_client := fun _ _ w => (inr tt, w);
     supported_model_id := fun _ model => inr model |}.

Definition reply (c : PyVal) (tc : option (list ToolCall)) : Completion :=
  {| choices := [{| message := {| content := c; tool_calls := tc |} |}] |}.

Definition user_turn (s : string) : ChatTurn :=
  [(py "role", VStr (py "user")); (py "content", VStr (py s))].

Definition call_of (name arguments : string) : ToolCall :=
  {| function_name := py name; function_arguments := py arguments |}.

Definition session (n : N) : @Session toy := n.

(** A client connected to the servers [calc] (session 1) and [notes]
    (session 2). *)
Definition two_servers : @MCPClient toy :=
  {| sessions := [(py "calc", session 1); (py "notes", session 2)];
     active_servers := [(py "calc", VBool true); (py "notes", VBool true)]
  |}.

Definition state (replies : list Completion) (down : list N) : @St toy :=
  @Build_St toy {| script := replies; crashed := down |} two_servers [].

Definition empty_state : @St toy :=
  @Build_St toy {| script := []; crashed := [] |}
    (@Build_MCPClient toy [] []) [].

Definition spec_of (name : string) (command : PyVal) : ServerSpec :=
  {| srv_name := py name;
     srv_command := Some command;
     srv_args := Some (VList []);
     srv_cwd := Some VNone |}.

(** The configuration that connects [calc] and [notes]. *)
Definition two_specs : list ServerSpec :=
  [spec_of "calc" (VStr (py "x")); spec_of "notes" (VStr (py "uv"))].

(** A batch of three servers; the second has no command to run. *)
Definition batch : list ServerSpec :=
  [spec_of "a" (VStr (py "python")); spec_of "b" VNone;
   spec_of "c" (VStr (py "uv"))].

(** A batch of three servers; the command of the second exits at once. *)
Definition batch_with_exit : list ServerSpec :=
  [spec_of "a" (VStr (py "python")); spec_of "b" (VStr (py "false"));
   spec_of "c" (VStr (py "uv"))].

Definition hi : list ChatTurn := [user_turn "hi"].

Definition chat_request : ChatRequest :=
  {| req_messages := hi;
     req_provider := py "openai";
     req_model := py "m" |}.

(** The model answers "hello". *)
Definition hello_state : @St toy :=
  state [reply (VStr (py "hello")) None] [].

(** The model returns an empty message. *)
Definition silent_state : @St toy := state [reply VNone None] [].



(** The model asks for [calc:a] and, in the same reply, for [notes:a];
    its second reply is "four". *)
Definition calc_state : @St toy :=
  state [reply (VStr (py "let me see"))
           (Some [call_of "calc:a" "{}"; call_of "notes:a" "{}"]);
         reply (VStr (py "four")) None] [].

(** The model asks for a tool of [ghost], which is not connected, with
    well-formed and with malformed arguments. *)
Definition ghost_state : @St toy :=
  state [reply VNone (Some [call_of "ghost:t" "{}"])] [].

Definition ghost_malformed_state : @St toy :=
  state [reply VNone (Some [call_of "ghost:t" "nojson"])] [].

(** The server of [notes], or of [calc], has crashed. *)
Definition notes_down : @St toy := state [] [2%N].

Definition calc_down : @St toy := state [reply (VStr (py "hello")) None] [1%N].

End Toy.

(* ===================================================================== *)
(** ** The other handlers *)
(* ===================================================================== *)

(** One item of the list of servers of the configuration file: a mapping
    with a string [name], or something on which [srv["name"]] raises (a
    mapping without that key, or an item that is not a mapping). *)
Inductive ConfigEntry : Type :=
| Named (srv : ServerSpec)
| Unnamed (e : PyExn).

(** [config.get("servers", [])]: a list of items, or a value on which
    [len] raises ([servers: null] loads as [None], and [len(None)] is a
    [TypeError]). *)
Inductive ServersValue : Type :=
| Unsized (e : PyExn)
| Entries (entries : list ConfigEntry).

(** What [startup_event] finds at the configuration path: no file, a file
    that loads as [None], or a mapping with its value for [servers] (the
    empty list when the key is absent). *)
Inductive ConfigFile : Type :=
| NoFile
| EmptyYaml
| Config (servers : ServersValue).

Section MoreHandlers.

Context {env : Collaborators}.

Notation "x <- m ;; k" := (bind m (fun x => k))
  (at level 61, m at next level, right associativity).


(** [mcp_client.active_servers[name] = entry] *)
Definition set_active (name : text) (entry : PyVal) : M unit :=
  fun st =>
    let c := mcp_client st in
    (inr tt,
     {| world := world st;
        mcp_client :=
          {| sessions := sessions c;
             active_servers := PyDict.set (active_servers c) name entry |};
        log := log st |}).

(** The body of the [try] of one iteration of [startup_event]: connect,
    then record the server as running. *)
Definition startup_server (srv : ServerSpec) : M unit :=
  command <- lift (srv_item "command" (srv_command srv)) ;;
  args <- lift (srv_item "args" (srv_args srv)) ;;
  cwd <- lift (srv_item "cwd" (srv_cwd srv)) ;;
  _ <- connect_to_server (srv_name srv) command args cwd ;;
  cwd' <- lift (srv_item "cwd" (srv_cwd srv)) ;;
  set_active (srv_name srv) (running_entry cwd').

(** [srv["name"]] *)
Definition entry_name (entry : ConfigEntry) : result text :=
  match entry with
  | Named srv => inr (srv_name srv)
  | Unnamed e => inl e
  end.

(** The body of the [try] for one item: its first step is [srv["name"]]. *)
Definition startup_entry (entry : ConfigEntry) : M unit :=
  match entry with
  | Named srv => startup_server srv
  | Unnamed e => raise e
  end.

(** The loop of [startup_event].  The handler prints the name of the
    server and the failure, and drops the failure; the name is read by
    [srv['name']] again, so for an item without name the handler itself
    raises. *)
Fixpoint startup_loop (entries : list ConfigEntry) : M unit :=
  match entries with
  | [] => ret tt
  | entry :: rest =>
      _ <- try_except (startup_entry entry)
             (fun e => _ <- lift (entry_name entry) ;; ret tt) ;;
      startup_loop rest
  end.

(** [startup_event], from what is found at the configuration path:
    [len(servers)] is printed before the loop. *)
Definition startup_event (file : ConfigFile) : M unit :=
  match file with
  | NoFile => ret tt
  | EmptyYaml => ret tt
  | Config (Unsized e) => raise e
  | Config (Entries entries) => startup_loop entries
  end.

(** Every connected server is listed by [/servers] with a mapping
    [{status: running, active: True, cwd}]. *)
Definition listed_as_running (c : MCPClient) : Prop :=
  forall name,
    PyDict.mem (sessions c) name = true ->
    exists cwd,
      PyDict.get (active_servers c) name = Some (running_entry cwd).

End MoreHandlers.

(* ===================================================================== *)
(** ** What a pattern cannot match without *)
(* ===================================================================== *)

(** [needs q r]: every match of [r] consumes a code point accepted by
    [q]. *)
Inductive needs (q : N -> bool) : Re.regex -> Prop :=
| needs_cls p :
    (forall x, p x = true -> q x = true) -> needs q (Re.Cls p)
| needs_cat_l r1 r2 : needs q r1 -> needs q (Re.Cat r1 r2)
| needs_cat_r r1 r2 : needs q r2 -> needs q (Re.Cat r1 r2).

(** Two newlines in a row somewhere in the text. *)
Fixpoint blank_line (s : text) : bool :=
  match s with
  | a :: s' =>
      match s' with
      | b :: _ => (N.eqb a newline && N.eqb b newline) || blank_line s'
      | [] => false
      end
  | [] => false
  end.

(** The text starts with white space. *)
Definition head_space (s : text) : bool :=
  match s with
  | c :: _ => py_isspace c
  | [] => false
  end.

(** [isinstance(block, dict)] *)
Definition is_dict (v : PyVal) : bool :=
  match v with VDict _ => true | _ => false end.

(** [isinstance(v, str)] *)
Definition is_str (v : PyVal) : bool :=
  match v with VStr _ => true | _ => false end.

(** [block.get("type")] and [block.get("text", default)] of a mapping. *)
Definition block_type (block : PyVal) : PyVal :=
  match block with
  | VDict d => PyDict.get_default d (py "type") VNone
  | _ => VNone
  end.

Definition block_text (block : PyVal) (default : PyVal) : PyVal :=
  match block with
  | VDict d => PyDict.get_default d (py "text") default
  | _ => default
  end.

Definition is_reasoning_block (block : PyVal) : bool :=
  eq_str (block_type block) (py "reasoning")
  || eq_str (block_type block) (py "thinking")
  || eq_str (block_type block) (py "system").


(** The identifiers and descriptions of a schema are those of a tool
    list. *)
Definition same_tools (tools : list ToolInfo) (schema : list FunctionSpec)
  : Prop :=
  List.map fn_name schema
  = List.map (fun ti => namespaced (ti_server ti) (ti_tool_name ti)) tools
  /\ List.map fn_description schema = List.map ti_description tools.

(* ===================================================================== *)
(** ** llm_adapter.LLMAdapter *)
(* ===================================================================== *)

Module Adapter.

(** The model table of [models_config.yaml]:
    provider -> model -> [{model_id, base_url, api_env}]. *)
Definition ModelInfo : Type := list (text * PyVal).
Definition ModelTable : Type := list (text * list (text * ModelInfo)).

(** The arguments the client is constructed with. *)
Inductive ClientArgs : Type :=
| AnthropicArgs (api_key : option text)
| OpenAIArgs (api_key : option text) (base_url : option text).

(** The attributes of an adapter. *)
Record LLMAdapter : Type := {
  provider : text;
  model : text;
  model_id : PyVal;
  base_url : option text;
  api_key : option text;
  client : ClientArgs
}.

(** [d[k]] *)
Definition item {V : Type} (d : list (text * V)) (k : text) : result V :=
  match PyDict.get d k with
  | Some v => inr v
  | None => inl (KeyError k)
  end.

(** [supported_models[provider][model]["model_id"]], as [chat_endpoint]
    looks the identifier up. *)
Definition model_id_lookup (supported_models : ModelTable)
  (provider model : text) : result PyVal :=
  match item supported_models provider with
  | inl e => inl e
  | inr models =>
      match item models model with
      | inl e => inl e
      | inr model_info => item model_info (py "model_id")
      end
  end.

Section Init.

(** [str.lower], [os.path.expandvars] and [os.getenv]. *)
Variable str_lower : text -> text.
Variable expandvars : text -> text.
Variable getenv : text -> option text.

(** The constructors [Anthropic(...)] and [OpenAI(...)]: they raise when
    they are given no key and find none in the environment. *)
Variable new_client : ClientArgs -> result unit.

(** [os.path.expandvars(v) if v else None] *)
Definition base_url_of (v : PyVal) : result (option text) :=
  if truthy v then
    match v with
    | VStr s => inr (Some (expandvars s))
    | _ =>
        inl (TypeError
               (py "expected str, bytes or os.PathLike object, not "
                ++ type_name v))
    end
  else inr None.

(** [os.getenv(v)] *)
Definition api_key_of (v : PyVal) : result (option text) :=
  match v with
  | VStr s => inr (getenv s)
  | _ => inl (TypeError (py "str expected, not " ++ type_name v))
  end.

(** [LLMAdapter.__init__(provider, model)], on the table the file holds;
    [None] is Python's [None]. *)
Definition init (supported_models : ModelTable)
  (provider_arg model_arg : option text) : result LLMAdapter :=
  match provider_arg with
  | None =>
      inl (AttributeError (py "'NoneType' object has no attribute 'lower'"))
  | Some p =>
      let provider_ :=
        match str_lower p with
        | [] => py "huggingface"
        | lowered => lowered
        end in
      let model_ :=
        match model_arg with
        | Some (c :: m) => c :: m
        | _ => py "gpt-oss-120b"
        end in
      if negb (PyDict.mem supported_models provider_) then
        inl (ValueError (py "Unsupported provider: " ++ p))
      else
        match item supported_models provider_ with
        | inl e => inl e
        | inr models =>
        match item models model_ with
        | inl e => inl e
        | inr model_info =>
        match item model_info (py "model_id") with
        | inl e => inl e
        | inr model_id_ =>
        match item model_info (py "base_url") with
        | inl e => inl e
        | inr base =>
        match base_url_of base with
        | inl e => inl e
        | inr base_url_ =>
        match item model_info (py "api_env") with
        | inl e => inl e
        | inr api_env =>
        match api_key_of api_env with
        | inl e => inl e
        | inr api_key_ =>
        let client_ :=
          if text_eqb provider_ (py "anthropic")
          then AnthropicArgs api_key_
          else OpenAIArgs api_key_ base_url_ in
        match new_client client_ with
        | inl e => inl e
        | inr _ =>
            inr {| provider := provider_;
                   model := model_;
                   model_id := model_id_;
                   base_url := base_url_;
                   api_key := api_key_;
                   client := client_ |}
        end end end end end end end end
  end.

End Init.

(** A table with one provider and one model, and [str.lower] on ASCII. *)
Definition ascii_str_lower (s : text) : text := List.map Re.ascii_lower s.

(** An environment that holds one key, and constructors that insist on
    one. *)
Definition one_key (name : text) : option text :=
  if text_eqb name (py "OPENAI_API_KEY") then Some (py "sk-test") else None.

Definition keyed_client (args : ClientArgs) : result unit :=
  match args with
  | AnthropicArgs None | OpenAIArgs None _ =>
      inl (OtherError (py "The api_key client option must be set"))
  | _ => inr tt
  end.

Definition small_table : ModelTable :=
  [(py "openai",
    [(py "gpt",
      [(py "model_id", VStr (py "gpt-4o"));
       (py "base_url", VNone);
       (py "api_env", VStr (py "OPENAI_API_KEY"))])])].

End Adapter.

(* ===================================================================== *)
(** ** mcp_servers/mcp_chatmemory.py *)
(* ===================================================================== *)

From Stdlib Require Import ZArith.

Module ChatMemory.

(** The list [chat_memory]. *)
Definition Memory : Type := list text.

(** [l[start:]] *)
Definition slice_from {A : Type} (start : Z) (l : list A) : list A :=
  let len := Z.of_nat (List.length l) in
  let first := if (start <? 0)%Z then Z.max (len + start) 0
               else Z.min start len in
  skipn (Z.to_nat first) l.

(** [remember(message)]: the reply and the memory afterwards. *)
Definition remember (message : text) (chat_memory : Memory)
  : text * Memory :=
  (py "Remembered: '" ++ message ++ py "'", chat_memory ++ [message]).

(** [recall(n)] *)
Definition recall (n : Z) (chat_memory : Memory) : list text :=
  match chat_memory with
  | [] => [py "No memory yet."]
  | _ => slice_from (- n) chat_memory
  end.

(** [clear_memory()] *)
Definition clear_memory (chat_memory : Memory) : text * Memory :=
  (py "Memory cleared.", []).

End ChatMemory.

(* ===================================================================== *)
(** ** More of the small world *)
(* ===================================================================== *)

Module Scenes.

Import Toy.

(** A tool result without structured content. *)
Definition unstructured : ToolResult :=
  {| structuredContent := IsNone; result_repr := py "CallToolResult" |}.

(** The small world with tools that answer without structured content, an
    adapter for the provider [openai] only, and a model table with the
    model [m] only. *)
Definition strict : Collaborators :=
  {| W := World;
     Session := N;
     Client := unit;
     open_session := @open_session toy;
     session_list_tools := @session_list_tools toy;
     session_call_tool := fun _ _ _ w => (inr unstructured, w);
     completions_create := @completions_create toy;
     json_loads := @json_loads toy;
     repr_container := @repr_container toy;
     str_isprintable := @str_isprintable toy;
     llm_adapter_client := fun provider _ w =>
       if text_eqb provider (py "openai") then (inr tt, w)
       else (inl (ValueError (py "Unsupported provider: " ++ provider)), w);
     supported_model_id := fun _ model =>
       if text_eqb model (py "m") then inr model
       else inl (KeyError model) |}.

(** The client with [calc] and [notes], the model asking for [calc:a]. *)
Definition strict_state : @St strict :=
  @Build_St strict
    {| script := [reply VNone (Some [call_of "calc:a" "{}"])];
       crashed := [] |}
    (@Build_MCPClient strict
       [(py "calc", 1%N); (py "notes", 2%N)]
       [(py "calc", VBool true); (py "notes", VBool true)])
    [].


(** The model asks for a tool by a name without separator. *)
Definition bare_name_state : @St toy :=
  state [reply VNone (Some [call_of "calc" "{}"])] [].

(** The model asks for [calc:a]; there is no second reply. *)
Definition one_reply_state : @St toy :=
  state [reply VNone (Some [call_of "calc:a" "{}"])] [].


(** Blocks of a structured message. *)
Definition block (type text_ : string) : PyVal :=
  VDict [(py "type", VStr (py type)); (py "text", VStr (py text_))].


Definition broken_reasoning : list PyVal :=
  [VDict [(py "type", VStr (py "reasoning")); (py "text", VNone)];
   block "output_text" "4"].

End Scenes.

(* ===================================================================== *)
(** * Properties *)
(* ===================================================================== *)

(** ** Strings and dictionaries *)

Lemma text_eqb_eq (a b : text) : text_eqb a b = true <-> a = b.
Proof.
  revert b; induction a as [|x a IH]; intros [|y b]; simpl; split;
    try congruence; try reflexivity.
  - intros H. apply andb_true_iff in H as [Hx Hab].
    apply N.eqb_eq in Hx. apply IH in Hab. congruence.
  - intros H. injection H as -> ->.
    rewrite N.eqb_refl. simpl. apply IH. reflexivity.
Qed.

Lemma text_eqb_refl (a : text) : text_eqb a a = true.
Proof. apply text_eqb_eq. reflexivity. Qed.

Lemma text_eqb_neq (a b : text) : text_eqb a b = false <-> a <> b.
Proof.
  split.
  - intros H E. apply text_eqb_eq in E. congruence.
  - intros H. destruct (text_eqb a b) eqn:E; [|reflexivity].
    apply text_eqb_eq in E. contradiction.
Qed.

Lemma break_at_first (sep : N) (before after : text) :
  ~ In sep before ->
  break_at sep (before ++ sep :: after) = Some (before, after).
Proof.
  induction before as [|c before IH]; intros Hnot; simpl.
  - rewrite N.eqb_refl. reflexivity.
  - destruct (N.eqb_spec c sep) as [->|Hne].
    + exfalso. apply Hnot. left. reflexivity.
    + rewrite IH; [reflexivity|].
      intros Hin. apply Hnot. right. exact Hin.
Qed.

Lemma break_at_absent (sep : N) (s : text) :
  ~ In sep s -> break_at sep s = None.
Proof.
  induction s as [|c s IH]; intros Hnot; simpl; [reflexivity|].
  destruct (N.eqb_spec c sep) as [->|Hne].
  - exfalso. apply Hnot. left. reflexivity.
  - rewrite IH; [reflexivity|].
    intros Hin. apply Hnot. right. exact Hin.
Qed.

Section DictFacts.

Variable V : Type.
Implicit Types (d : PyDict.t V) (k : text) (v : V).

Lemma get_set_same d k v : PyDict.get (PyDict.set d k v) k = Some v.
Proof.
  induction d as [|[k' v'] d IH]; simpl.
  - rewrite text_eqb_refl. reflexivity.
  - destruct (text_eqb k' k) eqn:E; simpl; rewrite E; [reflexivity|exact IH].
Qed.

Lemma get_set_other d k k' v :
  k <> k' -> PyDict.get (PyDict.set d k v) k' = PyDict.get d k'.
Proof.
  intros Hne. induction d as [|[k0 v0] d IH]; simpl.
  - apply text_eqb_neq in Hne. rewrite Hne. reflexivity.
  - destruct (text_eqb k0 k) eqn:E; simpl.
    + apply text_eqb_eq in E. subst k0.
      apply text_eqb_neq in Hne. rewrite Hne. reflexivity.
    + rewrite IH. reflexivity.
Qed.

Lemma get_absent d k :
  ~ In k (PyDict.keys d) -> PyDict.get d k = None.
Proof.
  induction d as [|[k' v'] d IH]; simpl; intros Hnot; [reflexivity|].
  destruct (text_eqb k' k) eqn:E.
  - apply text_eqb_eq in E. exfalso. apply Hnot. left. exact E.
  - apply IH. intros Hin. apply Hnot. right. exact Hin.
Qed.


Lemma mem_set d k k' v :
  PyDict.mem (PyDict.set d k v) k' = text_eqb k k' || PyDict.mem d k'.
Proof.
  unfold PyDict.mem. destruct (text_eqb k k') eqn:E.
  - apply text_eqb_eq in E. subst k'. rewrite get_set_same. reflexivity.
  - apply text_eqb_neq in E. rewrite get_set_other by exact E. reflexivity.
Qed.

End DictFacts.

(** ** The namespaced identifier *)

(** C7. Round trip of the namespaced tool identifier: for a server name
    without the separator [:] and any tool name (which may contain the
    separator), formatting ["<server>:<tool>"] and splitting it on the first
    separator gives back the pair (server, tool). *)
Theorem namespaced_round_trip (server tool : text) :
  ~ In colon server ->
  parse_namespaced (namespaced server tool) = inr (server, tool).
Proof.
  intros Hnot. unfold parse_namespaced, namespaced. simpl.
  change (server ++ 58%N :: tool) with (server ++ colon :: tool).
  rewrite break_at_first by exact Hnot. reflexivity.
Qed.

(** An identifier without separator cannot be unpacked into two names. *)
Lemma parse_namespaced_no_separator (name : text) :
  ~ In colon name ->
  parse_namespaced name
  = inl (ValueError (py "not enough values to unpack (expected 2, got 1)")).
Proof.
  intros Hnot. unfold parse_namespaced. simpl.
  rewrite break_at_absent by exact Hnot. reflexivity.
Qed.

(** The round trip at the server [calc] and the tool [a:b]. *)
Lemma namespaced_round_trip_witness :
  ~ In colon (py "calc")
  /\ parse_namespaced (namespaced (py "calc") (py "a:b"))
     = inr (py "calc", py "a:b").
Proof.
  assert (Hnot : ~ In colon (py "calc")).
  { vm_compute. intros H.
    repeat (destruct H as [H|H]; [discriminate H|]). exact H. }
  split; [exact Hnot|].
  apply (namespaced_round_trip (py "calc") (py "a:b") Hnot).
Defined.

(** ** The response normaliser *)





(** ** The dispatcher *)

Section DispatchFacts.

Context {env : Collaborators}.

Lemma bind_ok {A B} (m : M A) (k : A -> M B) st x st' :
  m st = (inr x, st') -> bind m k st = k x st'.
Proof. intros H. unfold bind. rewrite H. reflexivity. Qed.

Lemma bind_raise {A B} (m : M A) (k : A -> M B) st e st' :
  m st = (inl e, st') -> bind m k st = (inl e, st').
Proof. intros H. unfold bind. rewrite H. reflexivity. Qed.

Lemma await_ok {A} ev (op : W -> outcome A * W) st r w :
  op (world st) = (r, w) -> await ev op st = (r, after_call st ev w).
Proof. intros H. unfold await. rewrite H. reflexivity. Qed.

Lemma schema_queries_no_chat evs :
  schema_queries evs -> filter is_chat evs = [].
Proof.
  induction 1 as [|ev evs Hev _ IH]; simpl; [reflexivity|].
  destruct ev; simpl in *; try discriminate. exact IH.
Qed.

Lemma schema_queries_no_tool evs :
  schema_queries evs -> filter is_call_tool evs = [].
Proof.
  induction 1 as [|ev evs Hev _ IH]; simpl; [reflexivity|].
  destruct ev; simpl in *; try discriminate. exact IH.
Qed.

(** The schema build only queries tool catalogues and leaves the client
    as it is. *)
Lemma available_tools_loop_log c items :
  forall acc st r st',
    available_tools_loop c items acc st = (r, st') ->
    mcp_client st' = mcp_client st
    /\ exists evs, log st' = log st ++ evs /\ schema_queries evs.
Proof.
  induction items as [|[name session] items IH]; intros acc st r st' H.
  - inversion H; subst. split; [reflexivity|].
    exists []. rewrite app_nil_r. split; [reflexivity|constructor].
  - simpl in H. destruct (negb (is_active c name)).
    + apply IH in H. exact H.
    + unfold bind, await in H.
      destruct (session_list_tools session (world st)) as [[e|tools] w].
      * inversion H; subst. split; [reflexivity|].
        exists [EvListTools session]. split; [reflexivity|].
        constructor; [reflexivity|constructor].
      * apply IH in H. destruct H as [Hc [evs [Hlog Hq]]].
        split; [exact Hc|].
        exists (EvListTools session :: evs). split.
        -- rewrite Hlog. simpl. rewrite <- app_assoc. reflexivity.
        -- constructor; [reflexivity|exact Hq].
Qed.

(** After a first reply has been obtained, the log holds the catalogue
    queries and then the one call of the model. *)
Lemma phase1_log cl mid msgs st msg st1 :
  phase1 cl mid msgs st = (inr msg, st1) ->
  mcp_client st1 = mcp_client st
  /\ exists evs tools,
       log st1 = log st ++ evs ++ [EvChat cl (phase1_request mid msgs tools)]
       /\ schema_queries evs.
Proof.
  unfold phase1, bind, self, call, lift, raised, ret. intros H.
  destruct (available_tools_loop (mcp_client st) (sessions (mcp_client st))
              [] st) as [[e|tools] st0] eqn:Hloop; [discriminate H|].
  apply available_tools_loop_log in Hloop.
  destruct Hloop as [Hc [evs [Hlog Hq]]].
  destruct (completions_create cl (phase1_request mid msgs tools)
              (world st0)) as [[e|completion] w]; [discriminate H|].
  destruct (first_item (choices completion)) as [e|choice];
    [discriminate H|].
  inversion H; subst. simpl. split; [exact Hc|].
  exists evs, tools. rewrite Hlog, <- app_assoc. split; [reflexivity|exact Hq].
Qed.

Lemma chat_calls_phase1 l evs ev :
  schema_queries evs -> is_chat ev = true ->
  chat_calls (l ++ evs ++ [ev]) = chat_calls l + 1.
Proof.
  intros Hq Hev. unfold chat_calls.
  rewrite !filter_app, (schema_queries_no_chat Hq). simpl. rewrite Hev.
  rewrite length_app. reflexivity.
Qed.

Lemma tool_invocations_phase1 l evs ev :
  schema_queries evs -> is_call_tool ev = false ->
  tool_invocations (l ++ evs ++ [ev]) = tool_invocations l.
Proof.
  intros Hq Hev. unfold tool_invocations.
  rewrite !filter_app, (schema_queries_no_tool Hq). simpl. rewrite Hev.
  rewrite app_nil_r. reflexivity.
Qed.




(** C9. A first reply with neither usable text nor a tool invocation:
    the dispatch returns the text "No response from model." with no tool,
    as a result and not as an exception, and the endpoint passes that text
    on unchanged. *)
Theorem degenerate_reply cl mid msgs st msg st1 :
  phase1 cl mid msgs st = (inr msg, st1) ->
  truthy (content msg) = false ->
  has_tool_calls (tool_calls msg) = false ->
  process_query cl mid msgs st
  = (inr {| text_ := VStr (py "No response from model.");
            tool_used := None |}, st1)
  /\ respond {| text_ := VStr (py "No response from model.");
                tool_used := None |}
     = inr (ChatOk (VStr (py "No response from model.")) None).
Proof.
  intros H1 Hc Htc. split; [|vm_compute; reflexivity].
  unfold process_query. erewrite bind_ok by exact H1.
  unfold dispatch_reply. rewrite Hc. simpl.
  destruct (tool_calls msg) as [[|tc more]|]; try reflexivity.
  discriminate Htc.
Qed.

(** A completion without any choice makes [choices[0]] raise: this is
    not the degenerate reply. *)
Lemma no_choice_raises cl mid msgs st tools st0 w :
  available_tools_loop (mcp_client st) (sessions (mcp_client st)) [] st
  = (inr tools, st0) ->
  completions_create cl (phase1_request mid msgs tools) (world st0)
  = (inr {| choices := [] |}, w) ->
  fst (process_query cl mid msgs st)
  = inl (Exc (IndexError (py "list index out of range"))).
Proof.
  intros Hloop Hc.
  unfold process_query, phase1, bind, self, call, lift.
  rewrite Hloop, Hc. reflexivity.
Qed.

(** The tool branch is taken whenever the reply has a tool call, whatever
    its text. *)
Lemma dispatch_reply_tool cl mid msgs msg tc more :
  tool_calls msg = Some (tc :: more) ->
  dispatch_reply cl mid msgs msg = invoke_tool cl mid msgs tc.
Proof.
  intros Htc. unfold dispatch_reply. rewrite Htc. simpl.
  rewrite andb_false_r. reflexivity.
Qed.

(** The full run of the tool branch when every step succeeds. *)
Lemma invoke_tool_success cl mid msgs tc st server tool args session
      tool_result w2 res pre turn asked completion2 w3 ch2 more2 :
  parse_namespaced (function_name tc) = inr (server, tool) ->
  json_loads (function_arguments tc) = inr args ->
  PyDict.get (sessions (mcp_client st)) server = Some session ->
  session_call_tool session tool args (world st) = (inr tool_result, w2) ->
  extract_result tool_result = inr res ->
  msgs = pre ++ [turn] ->
  subscript turn "content" = inr asked ->
  completions_create cl
    (phase2_request mid (final_prompt_text (py_str asked) (py_str res))) w2
  = (inr completion2, w3) ->
  choices completion2 = ch2 :: more2 ->
  invoke_tool cl mid msgs tc st
  = (inr {| text_ := content (message ch2);
            tool_used := Some (namespaced server tool) |},
     after_call
       (after_call st (EvCallTool session tool args) w2)
       (EvChat cl
          (phase2_request mid
             (final_prompt_text (py_str asked) (py_str res))))
       w3).
Proof.
  intros Hp Hj Hs Hc Hx Hm Ha Hq Hch.
  unfold invoke_tool, bind, lift, self, call, await, raised, ret.
  rewrite Hp, Hj. simpl. rewrite Hs, Hc. simpl. rewrite Hx.
  unfold final_prompt_of, last_item. subst msgs.
  rewrite rev_app_distr. simpl. rewrite Ha. simpl. rewrite Hq, Hch.
  reflexivity.
Qed.

(** Whatever the outcome of the tool branch, it leaves the client alone
    and adds to the log at most one tool invocation, that of the call it
    was given, and after it at most one call of the model. *)
Lemma invoke_tool_log cl mid msgs tc st r st' :
  invoke_tool cl mid msgs tc st = (r, st') ->
  mcp_client st' = mcp_client st
  /\ (log st' = log st
      \/ exists server tool args session,
           parse_namespaced (function_name tc) = inr (server, tool)
           /\ json_loads (function_arguments tc) = inr args
           /\ PyDict.get (sessions (mcp_client st)) server = Some session
           /\ (log st' = log st ++ [EvCallTool session tool args]
               \/ exists rq,
                    log st'
                    = log st ++ [EvCallTool session tool args;
                                 EvChat cl rq])).
Proof.
  unfold invoke_tool, bind, lift, self, call, await, raised, ret. intros H.
  destruct (parse_namespaced (function_name tc)) as [e|[server tool]]
    eqn:Hp; [inversion H; subst; auto|].
  destruct (json_loads (function_arguments tc)) as [e|args] eqn:Hj;
    [inversion H; subst; auto|].
  simpl in H.
  destruct (PyDict.get (sessions (mcp_client st)) server) as [session|]
    eqn:Hs; [|inversion H; subst; auto].
  destruct (session_call_tool session tool args (world st))
    as [[e|tool_result] w2].
  { inversion H; subst. split; [reflexivity|]. right.
    exists server, tool, args, session. auto. }
  simpl in H.
  destruct (extract_result tool_result) as [e|res].
  { inversion H; subst. split; [reflexivity|]. right.
    exists server, tool, args, session. auto. }
  destruct (final_prompt_of msgs res) as [e|prompt].
  { inversion H; subst. split; [reflexivity|]. right.
    exists server, tool, args, session. auto. }
  simpl in H.
  destruct (completions_create cl (phase2_request mid prompt) w2)
    as [[e|completion] w3];
    [|destruct (first_item (choices completion)) as [e|choice]];
    inversion H; subst; (split; [reflexivity|]); right;
    exists server, tool, args, session;
    (split; [first [assumption|reflexivity]|]);
    (split; [first [assumption|reflexivity]|]);
    (split; [first [assumption|reflexivity]|]); right;
    exists (phase2_request mid prompt); simpl;
    rewrite <- app_assoc; reflexivity.
Qed.

(** When the tool branch returns a result, it is either the report of
    a server that is not connected, or the reply of a second call of the
    model made after the tool invocation. *)
Lemma invoke_tool_returns cl mid msgs tc st r st2 :
  invoke_tool cl mid msgs tc st = (inr r, st2) ->
  (exists server, r = not_connected server /\ st2 = st)
  \/ exists server tool args session w2 prompt completion2 w3 ch2 more2,
       completions_create cl (phase2_request mid prompt) w2
       = (inr completion2, w3)
       /\ choices completion2 = ch2 :: more2
       /\ r = {| text_ := content (message ch2);
                 tool_used := Some (namespaced server tool) |}
       /\ st2 = after_call
                  (after_call st (EvCallTool session tool args) w2)
                  (EvChat cl (phase2_request mid prompt)) w3.
Proof.
  unfold invoke_tool, bind, lift, self, call, await, raised, ret. intros H.
  destruct (parse_namespaced (function_name tc)) as [e|[server tool]];
    [discriminate H|].
  destruct (json_loads (function_arguments tc)) as [e|args];
    [discriminate H|].
  simpl in H.
  destruct (PyDict.get (sessions (mcp_client st)) server) as [session|].
  2:{ inversion H; subst. left. exists server. auto. }
  destruct (session_call_tool session tool args (world st))
    as [[e|tool_result] w2]; [discriminate H|].
  simpl in H.
  destruct (extract_result tool_result) as [e|res]; [discriminate H|].
  destruct (final_prompt_of msgs res) as [e|prompt]; [discriminate H|].
  simpl in H.
  destruct (completions_create cl (phase2_request mid prompt) w2)
    as [[e|completion2] w3] eqn:Hq; [discriminate H|].
  destruct (choices completion2) as [|ch2 more2] eqn:Hch;
    [discriminate H|].
  simpl in H. inversion H; subst. right.
  exists server, tool, args, session, w2, prompt, completion2, w3, ch2,
    more2.
  auto.
Qed.

(** The result of a tool whose structured content is a mapping with the
    key [result], or a mapping without it, or is missing. *)
Lemma extract_result_structured tool_result res :
  (exists d, structuredContent tool_result = Mapping d
             /\ PyDict.get d (py "result") = Some res)
  \/ ((structuredContent tool_result = Missing
       \/ exists d, structuredContent tool_result = Mapping d
                    /\ PyDict.get d (py "result") = None)
      /\ res = raw_result tool_result) ->
  extract_result tool_result = inr res.
Proof.
  unfold extract_result.
  intros [[d [Hd Hr]]|[[Hm|[d [Hd Hr]]] ->]].
  - rewrite Hd, Hr. reflexivity.
  - rewrite Hm. reflexivity.
  - rewrite Hd, Hr. reflexivity.
Qed.

(** X13. A first reply that requests a tool of a connected server, with
    well-formed arguments, when the structured content of the tool result
    is a mapping or is missing (the result is then the item [result] of the
    mapping, or else the tool result itself): the tool is invoked exactly
    once; then the model is called a second time with a request of one user
    turn and no tools, whose prompt holds the content of the caller's last
    turn and the tool's result and nothing else of the conversation; the
    dispatch returns the second reply as text and the namespaced identifier
    as the tool. *)
Theorem tool_reply cl mid msgs st msg st1 tc more server tool args
        session tool_result w2 res pre turn asked completion2 w3 ch2
        more2 :
  phase1 cl mid msgs st = (inr msg, st1) ->
  tool_calls msg = Some (tc :: more) ->
  parse_namespaced (function_name tc) = inr (server, tool) ->
  json_loads (function_arguments tc) = inr args ->
  PyDict.get (sessions (mcp_client st)) server = Some session ->
  session_call_tool session tool args (world st1) = (inr tool_result, w2) ->
  (exists d, structuredContent tool_result = Mapping d
             /\ PyDict.get d (py "result") = Some res)
  \/ ((structuredContent tool_result = Missing
       \/ exists d, structuredContent tool_result = Mapping d
                    /\ PyDict.get d (py "result") = None)
      /\ res = raw_result tool_result) ->
  msgs = pre ++ [turn] ->
  subscript turn "content" = inr asked ->
  completions_create cl
    (phase2_request mid (final_prompt_text (py_str asked) (py_str res))) w2
  = (inr completion2, w3) ->
  choices completion2 = ch2 :: more2 ->
  exists st2,
    process_query cl mid msgs st
    = (inr {| text_ := content (message ch2);
              tool_used := Some (namespaced server tool) |}, st2)
    /\ log st2
       = log st1
         ++ [EvCallTool session tool args;
             EvChat cl
               (phase2_request mid
                  (final_prompt_text (py_str asked) (py_str res)))]
    /\ tool_invocations (log st2)
       = tool_invocations (log st) ++ [EvCallTool session tool args]
    /\ chat_calls (log st2) = chat_calls (log st) + 2
    /\ rq_messages
         (phase2_request mid
            (final_prompt_text (py_str asked) (py_str res)))
       = [[(py "role", VStr (py "user"));
           (py "content",
            VStr (final_prompt_text (py_str asked) (py_str res)))]]
    /\ rq_tools
         (phase2_request mid
            (final_prompt_text (py_str asked) (py_str res))) = None
    /\ exists a b c,
         final_prompt_text (py_str asked) (py_str res)
         = a ++ py_str asked ++ b ++ py_str res ++ c.
Proof.
  intros H1 Htc Hp Hj Hs Hc Hx Hm Ha Hq Hch.
  apply extract_result_structured in Hx.
  destruct (phase1_log _ _ _ _ H1) as [Hcl [evs [tools [Hlog Hsq]]]].
  rewrite <- Hcl in Hs.
  set (prompt := final_prompt_text (py_str asked) (py_str res)) in *.
  exists (after_call (after_call st1 (EvCallTool session tool args) w2)
            (EvChat cl (phase2_request mid prompt)) w3).
  split.
  { unfold process_query. erewrite bind_ok by exact H1.
    rewrite (dispatch_reply_tool _ _ _ _ Htc).
    eapply invoke_tool_success; eassumption. }
  cbn [log after_call].
  split; [rewrite <- app_assoc; reflexivity|].
  split.
  { unfold tool_invocations. rewrite Hlog, <- !app_assoc, !filter_app.
    rewrite (schema_queries_no_tool Hsq). reflexivity. }
  split.
  { unfold chat_calls. rewrite Hlog, <- !app_assoc, !filter_app.
    rewrite (schema_queries_no_chat Hsq).
    cbn [filter is_chat app]. rewrite !length_app.
    cbn [List.length]. lia. }
  split; [reflexivity|]. split; [reflexivity|].
  exists ([newline] ++ indent12 ++ py "The user asked: " ++ dquote),
    (dquote ++ [newline] ++ indent12 ++ py "The tool returned: " ++ dquote),
    (dquote ++ [newline] ++ indent12
     ++ py "Please summarize and respond naturally."
     ++ [newline] ++ indent12).
  subst prompt. unfold final_prompt_text.
  generalize (py_str asked), (py_str res),
    (py "Please summarize and respond naturally."), (py "The user asked: "),
    (py "The tool returned: "), indent12, dquote.
  intros. rewrite <- !app_assoc. reflexivity.
Qed.

(** The tool branch up to the result of the tool. *)
Lemma invoke_tool_after_call cl mid msgs tc st server tool args session
      tool_result w2 :
  parse_namespaced (function_name tc) = inr (server, tool) ->
  json_loads (function_arguments tc) = inr args ->
  PyDict.get (sessions (mcp_client st)) server = Some session ->
  session_call_tool session tool args (world st) = (inr tool_result, w2) ->
  invoke_tool cl mid msgs tc st
  = bind (lift (extract_result tool_result))
      (fun result_ =>
         bind (lift (final_prompt_of msgs result_))
           (fun final_prompt =>
              bind (call (EvChat cl (phase2_request mid final_prompt))
                      (completions_create cl
                         (phase2_request mid final_prompt)))
                (fun final_completion =>
                   bind (lift (first_item (choices final_completion)))
                     (fun choice =>
                        ret {| text_ := content (message choice);
                               tool_used :=
                                 Some (namespaced server tool) |}))))
      (after_call st (EvCallTool session tool args) w2).
Proof.
  intros Hp Hj Hs Hc.
  unfold invoke_tool. unfold bind at 1 2 3, lift at 1 2, self.
  rewrite Hp, Hj. cbn [raised fst snd]. rewrite Hs.
  unfold bind at 1, await. rewrite Hc. reflexivity.
Qed.

(** C3, the defect. A first reply that requests a tool of a connected
    server, with well-formed arguments, when the tool result has [None] for
    structured content: the tool has been invoked, the membership test of
    the result extraction raises [TypeError], and the dispatch ends there,
    without the second call of the model and without a result. *)
Theorem structured_content_none cl mid msgs st msg st1 tc more server tool
        args session tool_result w2 :
  phase1 cl mid msgs st = (inr msg, st1) ->
  tool_calls msg = Some (tc :: more) ->
  parse_namespaced (function_name tc) = inr (server, tool) ->
  json_loads (function_arguments tc) = inr args ->
  PyDict.get (sessions (mcp_client st)) server = Some session ->
  session_call_tool session tool args (world st1) = (inr tool_result, w2) ->
  structuredContent tool_result = IsNone ->
  process_query cl mid msgs st
  = (inl (Exc (TypeError
                 (py "argument of type 'NoneType' is not iterable"))),
     after_call st1 (EvCallTool session tool args) w2).
Proof.
  intros H1 Htc Hp Hj Hs Hc Hx.
  destruct (phase1_log _ _ _ _ H1) as [Hcl _]. rewrite <- Hcl in Hs.
  unfold process_query. erewrite bind_ok by exact H1.
  rewrite (dispatch_reply_tool _ _ _ _ Htc).
  erewrite invoke_tool_after_call by eassumption.
  unfold bind at 1, lift at 1, extract_result. rewrite Hx. reflexivity.
Qed.

(** C4, amended. A first reply whose first tool invocation names a server
    that is not connected: when the argument payload is well-formed JSON
    the dispatch returns the result "Error: server '<name>' not
    connected." with no tool; when the payload is malformed the dispatch
    raises the parse error; in both cases no tool is invoked and the
    model is not called a second time. *)
Theorem unknown_server cl mid msgs st msg st1 tc more server tool :
  phase1 cl mid msgs st = (inr msg, st1) ->
  tool_calls msg = Some (tc :: more) ->
  parse_namespaced (function_name tc) = inr (server, tool) ->
  PyDict.get (sessions (mcp_client st)) server = None ->
  process_query cl mid msgs st
  = (match json_loads (function_arguments tc) with
     | inl e => inl (Exc e)
     | inr _ => inr (not_connected server)
     end, st1)
  /\ tool_invocations (log st1) = tool_invocations (log st)
  /\ chat_calls (log st1) = chat_calls (log st) + 1.
Proof.
  intros H1 Htc Hp Hs.
  destruct (phase1_log _ _ _ _ H1) as [Hcl [evs [tools [Hlog Hsq]]]].
  rewrite <- Hcl in Hs. split.
  { unfold process_query. erewrite bind_ok by exact H1.
    rewrite (dispatch_reply_tool _ _ _ _ Htc).
    unfold invoke_tool, bind, lift, self, raised, ret. rewrite Hp.
    destruct (json_loads (function_arguments tc)); [reflexivity|].
    simpl. rewrite Hs. reflexivity. }
  rewrite Hlog. split.
  - apply tool_invocations_phase1; [exact Hsq|reflexivity].
  - apply chat_calls_phase1; [exact Hsq|reflexivity].
Qed.

(** C6. A first reply with several tool invocations: the dispatch is
    that of the first one alone, the same whatever follows it in the
    reply, and the only tool it can invoke is the one the first request
    names, with the arguments of the first request. *)
Theorem first_tool_call_only cl mid msgs st msg st1 tc more :
  phase1 cl mid msgs st = (inr msg, st1) ->
  tool_calls msg = Some (tc :: more) ->
  process_query cl mid msgs st = invoke_tool cl mid msgs tc st1
  /\ (forall more' : list ToolCall,
        dispatch_reply cl mid msgs
          {| content := content msg; tool_calls := Some (tc :: more') |} st1
        = process_query cl mid msgs st)
  /\ forall r st2,
       process_query cl mid msgs st = (r, st2) ->
       tool_invocations (log st2) = tool_invocations (log st)
       \/ exists server tool args session,
            parse_namespaced (function_name tc) = inr (server, tool)
            /\ json_loads (function_arguments tc) = inr args
            /\ PyDict.get (sessions (mcp_client st)) server = Some session
            /\ tool_invocations (log st2)
               = tool_invocations (log st) ++ [EvCallTool session tool args].
Proof.
  intros H1 Htc.
  assert (Hq : process_query cl mid msgs st = invoke_tool cl mid msgs tc st1).
  { unfold process_query. erewrite bind_ok by exact H1.
    rewrite (dispatch_reply_tool _ _ _ _ Htc). reflexivity. }
  split; [exact Hq|]. split.
  { intros more'. rewrite Hq.
    erewrite dispatch_reply_tool by reflexivity. reflexivity. }
  intros r st2 Hr. rewrite Hq in Hr.
  destruct (phase1_log _ _ _ _ H1) as [Hcl [evs [tools [Hlog Hsq]]]].
  assert (Ht1 : tool_invocations (log st1) = tool_invocations (log st)).
  { rewrite Hlog. apply tool_invocations_phase1; [exact Hsq|reflexivity]. }
  destruct (invoke_tool_log _ _ _ _ _ Hr) as [_ [Hl|Hl]].
  { left. rewrite Hl. exact Ht1. }
  destruct Hl as [server [tool [args [session [Hp [Hj [Hs Hl]]]]]]].
  rewrite Hcl in Hs. right. exists server, tool, args, session.
  repeat (split; [assumption|]).
  unfold tool_invocations in *.
  destruct Hl as [Hl|[rq Hl]]; rewrite Hl, filter_app, Ht1; reflexivity.
Qed.

(** C10. A first reply with both text and a tool invocation: the tool
    branch is taken; the outcome is the same whatever the text of the
    first reply is; and a result, when the server is connected, has for
    text the reply of the second call of the model, made right after the
    tool invocation. *)
Theorem tool_call_overrides_text cl mid msgs st msg st1 (s : text) tc more :
  phase1 cl mid msgs st = (inr msg, st1) ->
  content msg = VStr s -> s <> [] ->
  tool_calls msg = Some (tc :: more) ->
  process_query cl mid msgs st = invoke_tool cl mid msgs tc st1
  /\ (forall c' : PyVal,
        dispatch_reply cl mid msgs
          {| content := c'; tool_calls := tool_calls msg |} st1
        = process_query cl mid msgs st)
  /\ forall r st2,
       process_query cl mid msgs st = (inr r, st2) ->
       (exists server, r = not_connected server /\ st2 = st1)
       \/ exists ev rq2 w2 completion2 w3 ch2 more2,
            log st2 = log st1 ++ [ev; EvChat cl rq2]
            /\ is_call_tool ev = true
            /\ rq_tools rq2 = None
            /\ completions_create cl rq2 w2 = (inr completion2, w3)
            /\ choices completion2 = ch2 :: more2
            /\ text_ r = content (message ch2).
Proof.
  intros H1 Hc Hs Htc.
  assert (Hq : process_query cl mid msgs st = invoke_tool cl mid msgs tc st1).
  { unfold process_query. erewrite bind_ok by exact H1.
    rewrite (dispatch_reply_tool _ _ _ _ Htc). reflexivity. }
  split; [exact Hq|]. split.
  { intros c'. rewrite Hq.
    erewrite dispatch_reply_tool by (simpl; exact Htc). reflexivity. }
  intros r st2 Hr. rewrite Hq in Hr.
  destruct (invoke_tool_returns _ _ _ _ _ Hr) as [Hn|Hy]; [left; exact Hn|].
  destruct Hy as [server [tool [args [session [w2 [prompt [completion2
    [w3 [ch2 [more2 [Hcc [Hch [Hres Hst]]]]]]]]]]]]].
  right.
  exists (EvCallTool session tool args), (phase2_request mid prompt), w2,
    completion2, w3, ch2, more2.
  subst r st2. simpl. rewrite <- app_assoc. auto 10.
Qed.

End DispatchFacts.

(** ** Tool enumeration *)

Section EnumerationFacts.

Context {env : Collaborators}.

Lemma list_all_tools_loop_app c pre rest :
  forall acc st,
    list_all_tools_loop c (pre ++ rest) acc st
    = bind (list_all_tools_loop c pre acc)
        (fun acc1 => list_all_tools_loop c rest acc1) st.
Proof.
  unfold bind.
  induction pre as [|[name session] pre IH]; intros acc st; simpl.
  - reflexivity.
  - destruct (negb (is_active c name)); [apply IH|].
    unfold bind, await.
    destruct (session_list_tools session (world st)) as [[e|tools] w].
    + reflexivity.
    + apply IH.
Qed.

(** The two enumerations make the same calls and fail together. *)
Lemma enumerations_agree c items :
  forall acc acc' st,
    snd (available_tools_loop c items acc' st)
    = snd (list_all_tools_loop c items acc st)
    /\ match fst (list_all_tools_loop c items acc st),
             fst (available_tools_loop c items acc' st) with
       | inl e, inl e' => e = e'
       | inr _, inr _ => True
       | _, _ => False
       end.
Proof.
  induction items as [|[name session] items IH]; intros acc acc' st; simpl.
  - split; [reflexivity|exact I].
  - destruct (negb (is_active c name)); [apply IH|].
    unfold bind, await.
    destruct (session_list_tools session (world st)) as [[e|tools] w].
    + split; reflexivity.
    + apply IH.
Qed.

Lemma available_tools_loop_fails c pre name session post st tools_pre st1
      e w2 :
  list_all_tools_loop c pre [] st = (inr tools_pre, st1) ->
  is_active c name = true ->
  session_list_tools session (world st1) = (inl e, w2) ->
  available_tools_loop c (pre ++ (name, session) :: post) [] st
  = (inl e, after_call st1 (EvListTools session) w2).
Proof.
  intros Hpre Hact Hfail.
  destruct (enumerations_agree c (pre ++ (name, session) :: post)
              (@nil ToolInfo) (@nil FunctionSpec) st) as [Hst Hres].
  rewrite list_all_tools_loop_app in Hst, Hres.
  erewrite bind_ok in Hst, Hres by exact Hpre.
  simpl in Hst, Hres. rewrite Hact in Hst, Hres. simpl in Hst, Hres.
  erewrite bind_raise in Hst, Hres by (apply await_ok; exact Hfail).
  simpl in Hst, Hres.
  destruct (available_tools_loop c (pre ++ (name, session) :: post) [] st)
    as [[e'|x] st']; simpl in *; [|contradiction].
  subst. reflexivity.
Qed.

(** C5, amended. A tool-catalogue query that fails on a connected,
    active handle aborts the enumeration: [list_all_tools] and the schema
    build of [process_query] raise that failure right after the failing
    query, so the handles after it are not queried, no tool list is
    returned, and the model is not called. *)
Theorem enumeration_aborts_on_failure cl mid msgs st pre name session post
        tools_pre st1 e w2 :
  sessions (mcp_client st) = pre ++ (name, session) :: post ->
  list_all_tools_loop (mcp_client st) pre [] st = (inr tools_pre, st1) ->
  is_active (mcp_client st) name = true ->
  session_list_tools session (world st1) = (inl e, w2) ->
  list_all_tools st = (inl e, after_call st1 (EvListTools session) w2)
  /\ process_query cl mid msgs st
     = (inl e, after_call st1 (EvListTools session) w2)
  /\ chat_calls (log (after_call st1 (EvListTools session) w2))
     = chat_calls (log st).
Proof.
  intros Hs Hpre Hact Hfail. split; [|split].
  - unfold list_all_tools, bind at 1, self. rewrite Hs.
    rewrite list_all_tools_loop_app.
    erewrite bind_ok by exact Hpre.
    simpl. rewrite Hact. simpl.
    apply bind_raise. apply await_ok. exact Hfail.
  - unfold process_query, phase1.
    unfold bind at 1 2 3, self. rewrite Hs.
    erewrite available_tools_loop_fails by eassumption.
    reflexivity.
  - destruct (enumerations_agree (mcp_client st) pre
                (@nil ToolInfo) (@nil FunctionSpec) st) as [Hst _].
    rewrite Hpre in Hst. simpl in Hst.
    destruct (available_tools_loop (mcp_client st) pre [] st)
      as [r st'] eqn:Hav.
    simpl in Hst. subst st'.
    apply available_tools_loop_log in Hav.
    destruct Hav as [_ [evs [Hlog Hq]]].
    unfold chat_calls. cbn [log after_call].
    rewrite Hlog, !filter_app, (schema_queries_no_chat Hq).
    simpl. rewrite !app_nil_r. reflexivity.
Qed.

End EnumerationFacts.

(** ** Batch start of the configured servers *)

Section SupervisorFacts.

Context {env : Collaborators}.




(** Starting a server never disconnects another one, and keeps every
    connected server flagged active. *)
Lemma start_server_keeps srv st r st' :
  start_server srv st = (r, st') ->
  (forall name, PyDict.mem (sessions (mcp_client st)) name = true ->
                PyDict.mem (sessions (mcp_client st')) name = true)
  /\ (consistent (mcp_client st) -> consistent (mcp_client st')).
Proof.
  unfold start_server, connect_to_server, bind, lift, await, raised, ret.
  destruct (srv_item "command" (srv_command srv));
    [intros H; inversion H; subst; auto|].
  destruct (srv_item "args" (srv_args srv));
    [intros H; inversion H; subst; auto|].
  destruct (srv_item "cwd" (srv_cwd srv)) as [|cwd];
    [intros H; inversion H; subst; auto|].
  destruct (open_session p p0 cwd (world st)) as [[e|session] w];
    simpl; intros H; inversion H; subst; simpl; [auto|].
  split.
  - intros name Hm. rewrite mem_set, Hm. apply orb_true_r.
  - intros Hc name. unfold is_active. simpl.
    rewrite mem_set. unfold PyDict.get_default.
    destruct (text_eqb (srv_name srv) name) eqn:E.
    + apply text_eqb_eq in E. subst name.
      rewrite get_set_same. reflexivity.
    + apply text_eqb_neq in E. rewrite get_set_other by exact E.
      simpl. apply Hc.
Qed.

(** A start either fails and leaves the client as it is, or connects under
    the name of the entry and reports it as running, with the working
    directory of the entry. *)
Lemma start_server_inv srv st r st' :
  start_server srv st = (r, st') ->
  (exists e, r = inl e /\ mcp_client st' = mcp_client st)
  \/ (exists session cwd,
        r = inr (running_entry cwd)
        /\ srv_cwd srv = Some cwd
        /\ mcp_client st'
           = {| sessions :=
                  PyDict.set (sessions (mcp_client st)) (srv_name srv)
                    session;
                active_servers :=
                  PyDict.set (active_servers (mcp_client st)) (srv_name srv)
                    (VBool true) |}).
Proof.
  unfold start_server, connect_to_server, bind, lift, await, ret.
  destruct (srv_command srv) as [command|]; cbn [srv_item raised];
    [|intros H; inversion H; subst; left; eauto].
  destruct (srv_args srv) as [args|]; cbn [srv_item raised];
    [|intros H; inversion H; subst; left; eauto].
  destruct (srv_cwd srv) as [cwd|]; cbn [srv_item raised];
    [|intros H; inversion H; subst; left; eauto].
  destruct (open_session command args cwd (world st)) as [[e|session] w];
    simpl; intros H; inversion H; subst; [left; eauto|].
  right. exists session, cwd. repeat split.
Qed.

(** One turn of the loop of [upload_config]: the entry of a server that
    started, the error entry of one whose start raised an exception; a
    cancellation leaves the loop. *)
Lemma upload_loop_cons srv rest acc st :
  upload_loop (srv :: rest) acc st
  = match start_server srv st with
    | (inr entry, st1) =>
        upload_loop rest (PyDict.set acc (srv_name srv) entry) st1
    | (inl (Exc e), st1) =>
        upload_loop rest (PyDict.set acc (srv_name srv) (error_entry e)) st1
    | (inl (Cancelled msg), st1) => (inl (Cancelled msg), st1)
    end.
Proof.
  cbn [upload_loop]. unfold bind at 1, try_except, ret.
  destruct (start_server srv st) as [[[e|msg]|entry] st1]; reflexivity.
Qed.

Lemma upload_loop_app pre rest :
  forall acc st,
    upload_loop (pre ++ rest) acc st
    = bind (upload_loop pre acc) (fun report => upload_loop rest report) st.
Proof.
  induction pre as [|srv pre IH]; intros acc st; [reflexivity|].
  cbn [app]. rewrite upload_loop_cons. unfold bind at 1.
  rewrite upload_loop_cons.
  destruct (start_server srv st) as [[[e|msg]|entry] st1];
    [apply IH|reflexivity|apply IH].
Qed.

Lemma batch_cancelled_cons srv rest st :
  batch_cancelled (srv :: rest) st
  = match start_server srv st with
    | (inl (Cancelled _), _) => true
    | (_, st') => batch_cancelled rest st'
    end.
Proof. reflexivity. Qed.







(** The state after [upload_config] is the state after its loop. *)
Lemma upload_config_state servers st :
  snd (upload_config servers st) = snd (upload_loop servers [] st).
Proof.
  unfold upload_config, try_except, bind, lift, ret, json_response.
  destruct (upload_loop servers [] st) as [[[e|msg]|report] st'];
    try reflexivity.
  destruct (json_check (servers_payload report)); reflexivity.
Qed.

(** A report that is returned is the report of the loop. *)
Lemma upload_config_report servers st report st' :
  upload_config servers st = (inr (ServersOk report), st') ->
  upload_loop servers [] st = (inr report, st').
Proof.
  unfold upload_config, try_except, bind, lift, ret, json_response.
  destruct (upload_loop servers [] st) as [[[e|msg]|report0] st0];
    try (intros H; discriminate H).
  destruct (json_check (servers_payload report0)); cbn [raised];
    intros H; inversion H; reflexivity.
Qed.


(** C1, the defect. A start that is cancelled is not caught by the
    handler of the loop nor by the handler of the endpoint: the upload
    ends with the cancellation in the state the cancelled start left, so
    no report is returned and the servers after the cancelled one are not
    started. *)
Theorem upload_config_cancelled pre srv rest st report st1 msg st2 :
  upload_loop pre [] st = (inr report, st1) ->
  start_server srv st1 = (inl (Cancelled msg), st2) ->
  upload_config (pre ++ srv :: rest) st = (inl (Cancelled msg), st2)
  /\ batch_cancelled (pre ++ srv :: rest) st = true.
Proof.
  intros Hpre Hs. split.
  - unfold upload_config, try_except. unfold bind at 1.
    rewrite upload_loop_app. unfold bind at 1. rewrite Hpre.
    rewrite upload_loop_cons, Hs. reflexivity.
  - revert st report Hpre.
    generalize (@nil (text * PyVal)).
    induction pre as [|s0 pre IH]; intros acc st report Hpre.
    + inversion Hpre; subst. cbn [app]. rewrite batch_cancelled_cons, Hs.
      reflexivity.
    + cbn [app]. rewrite batch_cancelled_cons.
      rewrite upload_loop_cons in Hpre.
      destruct (start_server s0 st) as [[[e|m]|entry] st0];
        [eapply IH; exact Hpre|reflexivity|eapply IH; exact Hpre].
Qed.

End SupervisorFacts.

(* ===================================================================== *)
(** * The properties at work in the small world *)
(* ===================================================================== *)

Section ToyRuns.

Import Toy Scenes.

(** The client with the two servers is what an upload of their
    configuration builds from the empty client. *)
Lemma two_servers_reachable :
  mcp_client (snd (upload_config (env := toy) two_specs empty_state))
  = two_servers.
Proof. reflexivity. Qed.

(** C1, the defect, on a batch of three servers of which the second exits
    at once: the upload ends with the cancellation, the first server is
    connected, the third has not been started. *)
Lemma upload_config_cancelled_witness :
  fst (upload_config (env := toy) batch_with_exit empty_state)
  = inl (Cancelled (py "Cancelled by cancel scope"))
  /\ PyDict.keys
       (sessions
          (mcp_client
             (snd (upload_config (env := toy) batch_with_exit empty_state))))
     = [py "a"]
  /\ List.length
       (log (snd (upload_config (env := toy) batch_with_exit empty_state)))
     = 2.
Proof.
  edestruct (@upload_config_cancelled toy [spec_of "a" (VStr (py "python"))]
               (spec_of "b" (VStr (py "false")))
               [spec_of "c" (VStr (py "uv"))] empty_state)
    as [Hu _].
  - cbv; reflexivity.
  - cbv; reflexivity.
  - change (upload_config (env := toy) batch_with_exit empty_state)
      with (upload_config (env := toy)
              ([spec_of "a" (VStr (py "python"))]
               ++ spec_of "b" (VStr (py "false"))
                  :: [spec_of "c" (VStr (py "uv"))]) empty_state).
    rewrite Hu. repeat split.
Defined.



(** C9 on the empty message. *)
Lemma degenerate_reply_witness :
  fst (process_query (env := toy) tt (py "m") hi silent_state)
  = inr {| text_ := VStr (py "No response from model.");
           tool_used := None |}.
Proof.
  edestruct (@degenerate_reply toy tt (py "m") hi silent_state) as [Hp _].
  - cbv; reflexivity.
  - cbv; reflexivity.
  - cbv; reflexivity.
  - rewrite Hp. reflexivity.
Defined.

(** X13 on the request for [calc:a]. *)
Lemma tool_reply_witness :
  exists st2,
    process_query (env := toy) tt (py "m") hi calc_state
    = (inr {| text_ := VStr (py "four");
              tool_used := Some (py "calc:a") |}, st2)
    /\ tool_invocations (log st2)
       = [EvCallTool (env := toy) (session 1) (py "a") (VDict [])]
    /\ chat_calls (log st2) = 2.
Proof.
  edestruct (@tool_reply toy tt (py "m") hi calc_state)
    with (pre := @nil ChatTurn) (server := py "calc") (tool := py "a")
    as [st2 [Hp [_ [Ht [Hc _]]]]].
  - cbv; reflexivity.
  - cbv; reflexivity.
  - cbv; reflexivity.
  - cbv; reflexivity.
  - cbv; reflexivity.
  - cbv; reflexivity.
  - left. eexists. split; cbv; reflexivity.
  - cbv; reflexivity.
  - cbv; reflexivity.
  - cbv; reflexivity.
  - cbv; reflexivity.
  - exists st2. split; [exact Hp|]. split; [exact Ht|exact Hc].
Defined.

(** C3, the defect, where the tools answer without structured content. *)
Lemma structured_content_none_witness :
  fst (process_query (env := strict) tt (py "m") hi strict_state)
  = inl (Exc (TypeError
                (py "argument of type 'NoneType' is not iterable")))
  /\ chat_calls
       (log (snd (process_query (env := strict) tt (py "m") hi
                    strict_state))) = 1.
Proof.
  erewrite (@structured_content_none strict tt (py "m") hi strict_state);
    cycle 1.
  - cbv; reflexivity.
  - cbv; reflexivity.
  - cbv; reflexivity.
  - cbv; reflexivity.
  - cbv; reflexivity.
  - cbv; reflexivity.
  - reflexivity.
  - split; reflexivity.
Defined.

(** C6 on the reply that asks for [calc:a] and for [notes:a]. *)
Lemma first_tool_call_only_witness :
  process_query (env := toy) tt (py "m") hi calc_state
  = invoke_tool (env := toy) tt (py "m") hi (call_of "calc:a" "{}")
      (snd (phase1 (env := toy) tt (py "m") hi calc_state)).
Proof.
  edestruct (@first_tool_call_only toy tt (py "m") hi calc_state)
    as [Hq _].
  - cbv; reflexivity.
  - cbv; reflexivity.
  - exact Hq.
Defined.

(** C10 on the reply that has the text "let me see" and asks for
    [calc:a]. *)
Lemma tool_call_overrides_text_witness :
  dispatch_reply (env := toy) tt (py "m") hi
    {| content := VNone;
       tool_calls := Some [call_of "calc:a" "{}"; call_of "notes:a" "{}"] |}
    (snd (phase1 (env := toy) tt (py "m") hi calc_state))
  = process_query (env := toy) tt (py "m") hi calc_state
  /\ fst (process_query (env := toy) tt (py "m") hi calc_state)
     = inr {| text_ := VStr (py "four"); tool_used := Some (py "calc:a") |}.
Proof.
  edestruct (@tool_call_overrides_text toy tt (py "m") hi calc_state)
    as [Hq [Hc _]].
  - cbv; reflexivity.
  - cbv; reflexivity.
  - discriminate.
  - cbv; reflexivity.
  - split; [exact (Hc VNone)|]. rewrite Hq. reflexivity.
Defined.

(** C4, amended, on the request for a tool of [ghost]. *)
Lemma unknown_server_witness :
  fst (process_query (env := toy) tt (py "m") hi ghost_state)
  = inr {| text_ := VStr (py "Error: server 'ghost' not connected.");
           tool_used := None |}
  /\ tool_invocations
       (log (snd (process_query (env := toy) tt (py "m") hi ghost_state)))
     = [].
Proof.
  edestruct (@unknown_server toy tt (py "m") hi ghost_state)
    with (server := py "ghost") (tool := py "t") as [Hp [Ht _]].
  - cbv; reflexivity.
  - cbv; reflexivity.
  - cbv; reflexivity.
  - cbv; reflexivity.
  - rewrite Hp. split; [reflexivity|exact Ht].
Defined.

(** C4 as stated fails: [ghost] is not connected, yet with a malformed
    argument payload the dispatch does not return the result "server not
    connected"; it raises the parse error, which the endpoint reports as
    a server error. *)
Lemma unknown_server_malformed_payload :
  parse_namespaced (py "ghost:t") = inr (py "ghost", py "t")
  /\ PyDict.get (sessions (mcp_client ghost_malformed_state)) (py "ghost")
     = None
  /\ fst (process_query (env := toy) tt (py "m") hi ghost_malformed_state)
     = inl (Exc (JSONDecodeError
                   (py "Expecting value: line 1 column 1 (char 0)")))
  /\ fst (process_query (env := toy) tt (py "m") hi ghost_malformed_state)
     <> inr (not_connected (py "ghost"))
  /\ fst (chat_endpoint (env := toy) chat_request ghost_malformed_state)
     = inr (ServerError
              (py "Expecting value: line 1 column 1 (char 0)")).
Proof.
  repeat split; try reflexivity. discriminate.
Qed.

(** C5, amended, when the server of [notes] has crashed. *)
Lemma enumeration_aborts_on_failure_witness :
  fst (list_all_tools (env := toy) notes_down)
  = inl (Exc (OtherError (py "session closed")))
  /\ fst (process_query (env := toy) tt (py "m") hi notes_down)
     = inl (Exc (OtherError (py "session closed"))).
Proof.
  edestruct (@enumeration_aborts_on_failure toy tt (py "m") hi notes_down
               [(py "calc", session 1)] (py "notes") (session 2) [])
    as [Hl [Hp _]].
  - cbv; reflexivity.
  - cbv; reflexivity.
  - cbv; reflexivity.
  - cbv; reflexivity.
  - rewrite Hl, Hp. split; reflexivity.
Defined.

(** C5 as stated fails: the server of [calc] has crashed, the one of
    [notes] still answers the catalogue query, and yet neither
    enumeration returns the tool of [notes]: both raise. *)
Lemma enumeration_not_resilient :
  fst (session_list_tools (Collaborators := toy) (session 2)
         (world calc_down)) = inr [tool_a]
  /\ is_active two_servers (py "notes") = true
  /\ fst (list_all_tools (env := toy) calc_down)
     = inl (Exc (OtherError (py "session closed")))
  /\ (forall tools,
        fst (list_all_tools (env := toy) calc_down) <> inr tools)
  /\ fst (process_query (env := toy) tt (py "m") hi calc_down)
     = inl (Exc (OtherError (py "session closed")))
  /\ chat_calls
       (log (snd (process_query (env := toy) tt (py "m") hi calc_down)))
     = 0.
Proof.
  repeat split; try reflexivity. intros tools. discriminate.
Qed.

End ToyRuns.

(* ===================================================================== *)
(** * Further properties of the code *)
(* ===================================================================== *)

(** ** Identifiers *)

Lemma break_at_some (sep : N) (s before after : text) :
  break_at sep s = Some (before, after) ->
  s = before ++ sep :: after /\ ~ In sep before.
Proof.
  revert before after.
  induction s as [|c s IH]; intros before after H; simpl in H;
    [discriminate H|].
  destruct (N.eqb_spec c sep) as [->|Hne].
  - inversion H; subst. split; [reflexivity|]. intros [].
  - destruct (break_at sep s) as [[b a]|]; [|discriminate H].
    inversion H; subst. destruct (IH b after eq_refl) as [Hs Hb].
    split; [simpl; rewrite Hs; reflexivity|].
    intros [Hc|Hin]; [apply Hne; exact Hc|apply Hb; exact Hin].
Qed.

Lemma break_at_present (sep : N) (s : text) :
  In sep s ->
  exists before after,
    break_at sep s = Some (before, after) /\ ~ In sep before.
Proof.
  intros Hin. destruct (break_at sep s) as [[b a]|] eqn:E.
  - exists b, a. split; [reflexivity|].
    apply (break_at_some _ _ E).
  - exfalso. revert Hin E. induction s as [|c s IH]; simpl; [tauto|].
    intros [Hc|Hin].
    + subst c. rewrite N.eqb_refl. discriminate.
    + destruct (N.eqb c sep); [discriminate|].
      destruct (break_at sep s) as [[b a]|]; [discriminate|].
      intros _. apply IH; [exact Hin|reflexivity].
Qed.

(** Parsing then formatting gives the identifier back, and the server part
    never holds the separator. *)
Lemma parse_namespaced_inv (name server tool : text) :
  parse_namespaced name = inr (server, tool) ->
  namespaced server tool = name /\ ~ In colon server.
Proof.
  unfold parse_namespaced, namespaced. simpl.
  destruct (break_at colon name) as [[b a]|] eqn:E; simpl;
    [|discriminate].
  intros H. inversion H; subst.
  destruct (break_at_some _ _ E) as [Hs Hb].
  split; [symmetry; exact Hs|exact Hb].
Qed.

(** X1. A server name that holds the separator cannot be addressed: the
    identifier the schema builds for any of its tools parses to the part of
    the name before its first separator, a strictly shorter name. *)
Theorem separator_in_server_name (server tool : text) :
  In colon server ->
  exists server' tool',
    parse_namespaced (namespaced server tool) = inr (server', tool')
    /\ ~ In colon server'
    /\ server' <> server
    /\ List.length server' < List.length server.
Proof.
  intros Hin.
  destruct (break_at_present _ _ Hin) as [b [a [E Hb]]].
  destruct (break_at_some _ _ E) as [Hs _].
  exists b, (a ++ py ":" ++ tool).
  assert (Hlen : List.length b < List.length server).
  { rewrite Hs, length_app. simpl. lia. }
  split.
  - unfold parse_namespaced, namespaced. simpl.
    rewrite Hs, <- app_assoc. simpl.
    rewrite break_at_first by exact Hb. reflexivity.
  - split; [exact Hb|]. split; [|exact Hlen].
    intros Heq. rewrite Heq in Hlen. lia.
Qed.

(** The server [a:b] with the tool [t]. *)
Lemma separator_in_server_name_witness :
  In colon (py "a:b")
  /\ parse_namespaced (namespaced (py "a:b") (py "t"))
     = inr (py "a", py "b:t").
Proof.
  assert (Hin : In colon (py "a:b")) by (right; left; reflexivity).
  split; [exact Hin|].
  destruct (@separator_in_server_name (py "a:b") (py "t") Hin)
    as [s' [t' [Hp _]]].
  reflexivity.
Defined.

(** X2. Identifiers do not collide: for server names without the
    separator, equal identifiers come from the same server and the same
    tool. *)
Theorem namespaced_injective (s1 t1 s2 t2 : text) :
  ~ In colon s1 -> ~ In colon s2 ->
  namespaced s1 t1 = namespaced s2 t2 ->
  s1 = s2 /\ t1 = t2.
Proof.
  intros H1 H2 Heq.
  assert (E1 : break_at colon (namespaced s1 t1) = Some (s1, t1)).
  { unfold namespaced. simpl. apply break_at_first. exact H1. }
  assert (E2 : break_at colon (namespaced s2 t2) = Some (s2, t2)).
  { unfold namespaced. simpl. apply break_at_first. exact H2. }
  rewrite Heq, E2 in E1. inversion E1. split; reflexivity.
Qed.

(** The identifier [s1:a] taken twice. *)
Lemma namespaced_injective_witness :
  ~ In colon (py "s1")
  /\ (py "s1" = py "s1" /\ py "a" = py "a").
Proof.
  assert (H1 : ~ In colon (py "s1")).
  { vm_compute. intros H.
    repeat (destruct H as [H|H]; [discriminate H|]). exact H. }
  split; [exact H1|].
  exact (@namespaced_injective (py "s1") (py "a") (py "s1") (py "a")
           H1 H1 eq_refl).
Defined.

(** ** The matcher *)

Section MatcherFacts.

Import Re.

(** A continuation that rejects every text of a tail-closed family is
    never satisfied from a text of the family. *)
Lemma rmatch_none (P : text -> Prop) :
  (forall c s, P (c :: s) -> P s) ->
  forall r s k,
    P s -> (forall s', P s' -> k s' = None) -> rmatch r s k = None.
Proof.
  intros Htail r.
  induction r as [|p|r1 IH1 r2 IH2|g r1 IH1|g r1 IH1]; intros s k HP Hk;
    simpl.
  - apply Hk. exact HP.
  - destruct s as [|c s']; [reflexivity|].
    destruct (p c); [|reflexivity]. apply Hk. apply (Htail c). exact HP.
  - apply IH1; [exact HP|]. intros s' HP'. apply IH2; assumption.
  - rewrite (IH1 s k HP Hk), (Hk s HP). destruct g; reflexivity.
  - generalize (List.length s) at 1. intros n. revert s HP.
    induction n as [|n IHn]; intros s HP; [apply Hk; exact HP|].
    rewrite (Hk s HP).
    rewrite IH1; [destruct g; reflexivity|exact HP|].
    intros s' HP'. destruct (List.length s' <? List.length s);
      [apply IHn; exact HP'|reflexivity].
Qed.

(** What the matcher returns is what the continuation returned on a
    suffix of the text. *)
Lemma rmatch_some :
  forall r s k rest,
    rmatch r s k = Some rest ->
    exists before s', s = before ++ s' /\ k s' = Some rest.
Proof.
  induction r as [|p|r1 IH1 r2 IH2|g r1 IH1|g r1 IH1]; intros s k rest H;
    simpl in H.
  - exists [], s. split; [reflexivity|exact H].
  - destruct s as [|c s']; [discriminate H|].
    destruct (p c); [|discriminate H].
    exists [c], s'. split; [reflexivity|exact H].
  - apply IH1 in H. destruct H as [b1 [s1 [Hs1 H]]].
    apply IH2 in H. destruct H as [b2 [s2 [Hs2 H]]].
    exists (b1 ++ b2), s2. split; [|exact H].
    rewrite Hs1, Hs2, app_assoc. reflexivity.
  - assert (Hor : rmatch r1 s k = Some rest \/ k s = Some rest).
    { destruct g; unfold orelse in H.
      - destruct (rmatch r1 s k); [left; exact H|right; exact H].
      - destruct (k s); [right; exact H|left; exact H]. }
    destruct Hor as [Hm|Hk].
    + apply IH1 in Hm. exact Hm.
    + exists [], s. split; [reflexivity|exact Hk].
  - revert H. generalize (List.length s) at 1. intros n. revert s.
    induction n as [|n IHn]; intros s H.
    + exists [], s. split; [reflexivity|exact H].
    + set (more := rmatch r1 s _) in H.
      assert (Hor : more = Some rest \/ k s = Some rest).
      { destruct g; unfold orelse in H.
        - destruct more; [left; exact H|right; exact H].
        - destruct (k s); [right; exact H|left; exact H]. }
      destruct Hor as [Hm|Hk].
      * subst more. apply IH1 in Hm. destruct Hm as [b1 [s1 [Hs1 Hm]]].
        destruct (List.length s1 <? List.length s); [|discriminate Hm].
        apply IHn in Hm. destruct Hm as [b2 [s2 [Hs2 Hm]]].
        exists (b1 ++ b2), s2. split; [|exact Hm].
        rewrite Hs1, Hs2, app_assoc. reflexivity.
      * exists [], s. split; [reflexivity|exact Hk].
Qed.

(** A pattern that needs a code point the text does not have matches
    nowhere in it. *)
Lemma needs_none (q : N -> bool) r :
  needs q r ->
  forall s k, (forall c, In c s -> q c = false) -> rmatch r s k = None.
Proof.
  induction 1 as [p Hp|r1 r2 _ IH|r1 r2 _ IH]; intros s k Hs; simpl.
  - destruct s as [|c s']; [reflexivity|].
    destruct (p c) eqn:E; [|reflexivity].
    apply Hp in E. rewrite (Hs c) in E; [discriminate E|left; reflexivity].
  - apply IH. exact Hs.
  - apply (rmatch_none (fun s => forall c, In c s -> q c = false)).
    + intros c s' H c' Hin. apply H. right. exact Hin.
    + exact Hs.
    + intros s' Hs'. apply IH. exact Hs'.
Qed.

(** Where the pattern matches nowhere, [re.sub] changes nothing. *)
Lemma sub_from_unmatched (P : text -> Prop) r repl :
  (forall c s, P (c :: s) -> P s) ->
  (forall s k, P s -> rmatch r s k = None) ->
  forall fuel b s, P s -> sub_from fuel r repl b s = s.
Proof.
  intros Htail Hnone fuel.
  induction fuel as [|fuel IH]; intros b s HP; simpl; [reflexivity|].
  rewrite Hnone by exact HP.
  destruct s as [|c s']; [reflexivity|].
  rewrite IH; [reflexivity|]. apply (Htail c). exact HP.
Qed.

Lemma sub_absent (c : N) r repl s :
  needs (N.eqb c) r -> ~ In c s -> sub r repl s = s.
Proof.
  intros Hn Hs. unfold sub.
  apply (sub_from_unmatched (fun s => forall x, In x s -> N.eqb c x = false)).
  - intros x s' H x' Hin. apply H. right. exact Hin.
  - intros s' k Hs'. apply (needs_none Hn). exact Hs'.
  - intros x Hin. apply N.eqb_neq. intros ->. apply Hs. exact Hin.
Qed.

Lemma needs_seq (q : N -> bool) r rs :
  In r rs -> needs q r -> needs q (seq rs).
Proof.
  intros Hin Hn. induction rs as [|r0 rs IH]; [destruct Hin|].
  destruct Hin as [->|Hin].
  - destruct rs; [exact Hn|]. apply needs_cat_l. exact Hn.
  - destruct rs as [|r1 rs]; [destruct Hin|].
    change (seq (r0 :: r1 :: rs)) with (Cat r0 (seq (r1 :: rs))).
    apply needs_cat_r. apply IH. exact Hin.
Qed.

Lemma needs_lit (c : N) (s : string) :
  In c (py s) -> needs (N.eqb c) (lit s).
Proof.
  intros Hin. unfold lit. apply needs_seq with (r := chr c).
  - apply in_map. exact Hin.
  - apply needs_cls. intros x H. exact H.
Qed.

Lemma needs_ci_lit (c : N) (s : string) :
  In c (py s) -> is_ascii_letter c = false -> needs (N.eqb c) (ci_lit s).
Proof.
  intros Hin Hl. unfold ci_lit. apply needs_seq with (r := chr c).
  - replace (chr c) with (ci_chr c); [apply in_map; exact Hin|].
    unfold ci_chr. rewrite Hl. reflexivity.
  - apply needs_cls. intros x H. exact H.
Qed.

End MatcherFacts.

(** ** The reasoning filter *)

Section FilterFacts.

Import Re.

Ltac in_list := repeat (first [left; reflexivity | right]).

Lemma blank_line_tail c s : blank_line (c :: s) = false -> blank_line s = false.
Proof.
  destruct s as [|b s']; [reflexivity|].
  change (blank_line (c :: b :: s'))
    with ((N.eqb c newline && N.eqb b newline) || blank_line (b :: s')).
  intros H. apply orb_false_iff in H. apply H.
Qed.

Lemma newlines2_unmatched s k :
  blank_line s = false -> rmatch newlines2 s k = None.
Proof.
  intros H.
  change newlines2
    with (Cat (chr newline) (Cat (chr newline) (Star true (chr newline)))).
  change (rmatch (Cat (chr newline)
                    (Cat (chr newline) (Star true (chr newline)))) s k)
    with (match s with
          | a :: s1 =>
              if N.eqb newline a
              then match s1 with
                   | b :: s2 =>
                       if N.eqb newline b
                       then rmatch (Star true (chr newline)) s2 k
                       else None
                   | [] => None
                   end
              else None
          | [] => None
          end).
  destruct s as [|a [|b s2]]; [reflexivity|destruct (N.eqb newline a);
    reflexivity|].
  change (blank_line (a :: b :: s2))
    with ((N.eqb a newline && N.eqb b newline) || blank_line (b :: s2)) in H.
  apply orb_false_iff in H. destruct H as [H _].
  rewrite (N.eqb_sym newline a), (N.eqb_sym newline b).
  destruct (N.eqb a newline); [|reflexivity].
  simpl in H. rewrite H. reflexivity.
Qed.

(** X3. Text free of markers is only trimmed: a text without [*] and [:],
    and without [<] and [[] or else without [/], that has no blank line,
    comes out of the filter as [strip()] of itself.  In particular an
    opening tag that is never closed stays in the text. *)
Theorem filter_keeps_unmarked_text (s : text) :
  ~ In 42%N s -> ~ In 58%N s ->
  (~ In 60%N s /\ ~ In 91%N s) \/ ~ In 47%N s ->
  blank_line s = false ->
  strip_reasoning s = str_strip s.
Proof.
  intros Hstar Hcolon Htag Hblank.
  unfold strip_reasoning, patterns. cbn [fold_left].
  assert (H1 : sub (seq [lit "<think>"; Star false any; lit "</think>"])
                 [] s = s).
  { destruct Htag as [[Hlt _]|Hsl].
    - apply (@sub_absent 60%N); [|exact Hlt].
      apply needs_seq with (r := lit "<think>"); [in_list|].
      apply needs_lit. vm_compute. in_list.
    - apply (@sub_absent 47%N); [|exact Hsl].
      apply needs_seq with (r := lit "</think>"); [in_list|].
      apply needs_lit. vm_compute. in_list. }
  rewrite H1.
  assert (H2 : sub (seq [lit "<thinking>"; Star false any;
                         lit "</thinking>"]) [] s = s).
  { destruct Htag as [[Hlt _]|Hsl].
    - apply (@sub_absent 60%N); [|exact Hlt].
      apply needs_seq with (r := lit "<thinking>"); [in_list|].
      apply needs_lit. vm_compute. in_list.
    - apply (@sub_absent 47%N); [|exact Hsl].
      apply needs_seq with (r := lit "</thinking>"); [in_list|].
      apply needs_lit. vm_compute. in_list. }
  rewrite H2.
  assert (H3 : sub (seq [lit "[Reasoning]"; Star false any;
                         lit "[/Reasoning]"]) [] s = s).
  { destruct Htag as [[_ Hbr]|Hsl].
    - apply (@sub_absent 91%N); [|exact Hbr].
      apply needs_seq with (r := lit "[Reasoning]"); [in_list|].
      apply needs_lit. vm_compute. in_list.
    - apply (@sub_absent 47%N); [|exact Hsl].
      apply needs_seq with (r := lit "[/Reasoning]"); [in_list|].
      apply needs_lit. vm_compute. in_list. }
  rewrite H3.
  assert (H4 : sub (seq [lit "[Thought"; Opt true (lit "s"); lit "]";
                         Star false any; lit "[/Thought";
                         Opt true (lit "s"); lit "]"]) [] s = s).
  { destruct Htag as [[_ Hbr]|Hsl].
    - apply (@sub_absent 91%N); [|exact Hbr].
      apply needs_seq with (r := lit "[Thought"); [in_list|].
      apply needs_lit. vm_compute. in_list.
    - apply (@sub_absent 47%N); [|exact Hsl].
      apply needs_seq with (r := lit "[/Thought"); [in_list|].
      apply needs_lit. vm_compute. in_list. }
  rewrite H4.
  assert (H5 : sub (seq [ci_lit "**Thought"; Opt true (lit ":");
                         Star true not_star_nl]) [] s = s).
  { apply (@sub_absent 42%N); [|exact Hstar].
    apply needs_seq with (r := ci_lit "**Thought"); [in_list|].
    apply needs_ci_lit; [vm_compute; in_list|reflexivity]. }
  rewrite H5.
  assert (H6 : sub (seq [ci_lit "*Reasoning"; Opt true (lit ":");
                         Star true not_star_nl]) [] s = s).
  { apply (@sub_absent 42%N); [|exact Hstar].
    apply needs_seq with (r := ci_lit "*Reasoning"); [in_list|].
    apply needs_ci_lit; [vm_compute; in_list|reflexivity]. }
  rewrite H6.
  assert (H7 : sub (seq [ci_lit "let"; apostrophe;
                         ci_lit "s reason step by step:"; Star true any])
                 [] s = s).
  { apply (@sub_absent 58%N); [|exact Hcolon].
    apply needs_seq with (r := ci_lit "s reason step by step:"); [in_list|].
    apply needs_ci_lit; [vm_compute; in_list|reflexivity]. }
  rewrite H7.
  assert (H8 : sub (seq [ci_lit "let"; apostrophe;
                         ci_lit "s think step by step:"; Star true any])
                 [] s = s).
  { apply (@sub_absent 58%N); [|exact Hcolon].
    apply needs_seq with (r := ci_lit "s think step by step:"); [in_list|].
    apply needs_ci_lit; [vm_compute; in_list|reflexivity]. }
  rewrite H8.
  assert (H9 : sub (seq [ci_lit "thinking process:"; Star true any]) [] s
               = s).
  { apply (@sub_absent 58%N); [|exact Hcolon].
    apply needs_seq with (r := ci_lit "thinking process:"); [in_list|].
    apply needs_ci_lit; [vm_compute; in_list|reflexivity]. }
  rewrite H9.
  f_equal. unfold sub.
  apply (sub_from_unmatched (fun s => blank_line s = false)).
  - exact blank_line_tail.
  - intros s' k H. apply newlines2_unmatched. exact H.
  - exact Hblank.
Qed.

Lemma lstrip_head s : head_space (lstrip s) = false.
Proof.
  induction s as [|c s IH]; [reflexivity|]. simpl.
  destruct (py_isspace c) eqn:E; [exact IH|]. simpl. exact E.
Qed.

Lemma lstrip_snoc l x :
  py_isspace x = false -> lstrip (l ++ [x]) = lstrip l ++ [x].
Proof.
  intros Hx. induction l as [|c l IH]; simpl.
  - rewrite Hx. reflexivity.
  - destruct (py_isspace c); [exact IH|reflexivity].
Qed.

Lemma lstrip_suffix s : exists before, s = before ++ lstrip s.
Proof.
  induction s as [|c s [b IH]]; [exists []; reflexivity|]. simpl.
  destruct (py_isspace c).
  - exists (c :: b). simpl. rewrite <- IH. reflexivity.
  - exists []. reflexivity.
Qed.

Lemma lstrip_all_space s :
  (forall c, In c s -> py_isspace c = true) -> lstrip s = [].
Proof.
  induction s as [|c s IH]; intros H; [reflexivity|]. simpl.
  rewrite (H c) by (left; reflexivity).
  apply IH. intros x Hin. apply H. right. exact Hin.
Qed.

Lemma str_strip_trimmed s :
  head_space (str_strip s) = false
  /\ head_space (rev (str_strip s)) = false.
Proof.
  unfold str_strip. split.
  - pose proof (lstrip_head s) as Hh.
    destruct (lstrip s) as [|c t]; [reflexivity|].
    simpl in Hh. simpl rev at 2.
    rewrite lstrip_snoc by exact Hh. rewrite rev_app_distr. simpl. exact Hh.
  - rewrite rev_involutive. apply lstrip_head.
Qed.

Lemma str_strip_part s :
  incl (str_strip s) s /\ List.length (str_strip s) <= List.length s.
Proof.
  unfold str_strip.
  destruct (lstrip_suffix s) as [b1 H1].
  destruct (lstrip_suffix (rev (lstrip s))) as [b2 H2].
  split.
  - intros x Hx. apply in_rev in Hx.
    rewrite H1. apply in_or_app. right.
    apply in_rev. rewrite H2. apply in_or_app. right. exact Hx.
  - rewrite length_rev.
    apply (f_equal (@List.length N)) in H1, H2.
    rewrite length_app in H1, H2. rewrite length_rev in H2. lia.
Qed.

(** X4. What the filter returns never starts and never ends with white
    space. *)
Theorem filter_result_trimmed (s : text) :
  head_space (strip_reasoning s) = false
  /\ head_space (rev (strip_reasoning s)) = false.
Proof. unfold strip_reasoning. apply str_strip_trimmed. Qed.

(** Removing the matches of a pattern only deletes. *)
Lemma sub_from_deletes r fuel :
  forall b s,
    incl (sub_from fuel r [] b s) s
    /\ List.length (sub_from fuel r [] b s) <= List.length s.
Proof.
  induction fuel as [|fuel IH]; intros b s; simpl.
  - split; [apply incl_refl|lia].
  - destruct (rmatch r s _) as [rest|] eqn:E.
    + apply rmatch_some in E. destruct E as [before [s' [Hs Hk]]].
      assert (rest = s').
      { destruct (b && (List.length s' =? List.length s));
          [discriminate Hk|]. inversion Hk. reflexivity. }
      subst s'. simpl.
      destruct (IH (List.length rest =? List.length s) rest) as [Hi Hl].
      split.
      * intros x Hx. rewrite Hs. apply in_or_app. right. apply Hi. exact Hx.
      * rewrite Hs at 2. rewrite length_app. lia.
    + destruct s as [|c s']; [split; [apply incl_refl|lia]|].
      destruct (IH false s') as [Hi Hl]. split.
      * intros x [Hx|Hx]; [left; exact Hx|right; apply Hi; exact Hx].
      * simpl. lia.
Qed.

Lemma patterns_delete (ps : list regex) :
  forall s,
    incl (fold_left (fun cleaned pattern => sub pattern [] cleaned) ps s) s
    /\ List.length
         (fold_left (fun cleaned pattern => sub pattern [] cleaned) ps s)
       <= List.length s.
Proof.
  induction ps as [|p ps IH]; intros s; simpl.
  - split; [apply incl_refl|lia].
  - destruct (IH (sub p [] s)) as [Hi Hl].
    destruct (sub_from_deletes p (2 * List.length s + 2) false s)
      as [Hi' Hl'].
    fold (sub p [] s) in Hi', Hl'. split.
    + intros x Hx. apply Hi'. apply Hi. exact Hx.
    + lia.
Qed.

(** Collapsing the runs of newlines only deletes newlines. *)
Lemma newlines_collapse fuel :
  forall b s,
    incl (sub_from fuel newlines2 [newline; newline] b s) s
    /\ List.length (sub_from fuel newlines2 [newline; newline] b s)
       <= List.length s.
Proof.
  induction fuel as [|fuel IH]; intros b s; cbn [sub_from].
  - split; [apply incl_refl|lia].
  - destruct (rmatch newlines2 s _) as [rest|] eqn:E.
    + change newlines2
        with (Cat (chr newline)
                (Cat (chr newline) (Star true (chr newline)))) in E.
      change (rmatch (Cat (chr newline)
                        (Cat (chr newline) (Star true (chr newline)))) s)
        with (fun k =>
                match s with
                | a :: s1 =>
                    if N.eqb newline a
                    then match s1 with
                         | b :: s2 =>
                             if N.eqb newline b
                             then rmatch (Star true (chr newline)) s2 k
                             else None
                         | [] => None
                         end
                    else None
                | [] => None
                end) in E.
      cbv beta in E.
      destruct s as [|a [|c s2]]; [discriminate E| |].
      { destruct (N.eqb newline a); discriminate E. }
      destruct (N.eqb_spec newline a) as [<-|]; [|discriminate E].
      destruct (N.eqb_spec newline c) as [<-|]; [|discriminate E].
      apply rmatch_some in E. destruct E as [before [s' [Hs Hk]]].
      assert (rest = s').
      { destruct (b && (List.length s' =?
                        List.length (newline :: newline :: s2)));
          [discriminate Hk|]. inversion Hk. reflexivity. }
      subst s'.
      destruct (IH (List.length rest
                    =? List.length (newline :: newline :: s2)) rest)
        as [Hi Hl].
      split.
      * intros x [Hx|[Hx|Hx]]; [left; exact Hx|left; exact Hx|].
        right. right. rewrite Hs. apply in_or_app. right. apply Hi. exact Hx.
      * simpl. rewrite Hs at 2. rewrite length_app. simpl in Hl. lia.
    + destruct s as [|c s']; [split; [apply incl_refl|lia]|].
      destruct (IH false s') as [Hi Hl]. split.
      * intros x [Hx|Hx]; [left; exact Hx|right; apply Hi; exact Hx].
      * simpl. lia.
Qed.

Lemma strip_reasoning_part (s : text) :
  incl (strip_reasoning s) s
  /\ List.length (strip_reasoning s) <= List.length s.
Proof.
  unfold strip_reasoning.
  set (cleaned := fold_left _ patterns s).
  destruct (patterns_delete patterns s) as [Hi1 Hl1].
  fold cleaned in Hi1, Hl1.
  destruct (newlines_collapse (2 * List.length cleaned + 2) false cleaned)
    as [Hi2 Hl2].
  fold (sub newlines2 [newline; newline] cleaned) in Hi2, Hl2.
  destruct (str_strip_part (sub newlines2 [newline; newline] cleaned))
    as [Hi3 Hl3].
  split.
  - intros x Hx. apply Hi1, Hi2, Hi3. exact Hx.
  - lia.
Qed.

(** X5. The filter only deletes: every code point of its result occurs in
    the text it was given, and the result is not longer than the text. *)
Theorem filter_only_deletes (s : text) :
  incl (strip_reasoning s) s
  /\ List.length (strip_reasoning s) <= List.length s.
Proof. apply strip_reasoning_part. Qed.

(** X6. A text of white space only is filtered to the empty string. *)
Theorem filter_blank_text (s : text) :
  (forall c, In c s -> py_isspace c = true) ->
  strip_reasoning s = [].
Proof.
  intros Hs.
  assert (Hh : head_space (strip_reasoning s) = false).
  { unfold strip_reasoning. apply str_strip_trimmed. }
  destruct (strip_reasoning_part s) as [Hi _].
  destruct (strip_reasoning s) as [|c t]; [reflexivity|].
  simpl in Hh. rewrite (Hs c) in Hh; [discriminate Hh|].
  apply Hi. left. reflexivity.
Qed.

End FilterFacts.

(** ** Block lists in the normaliser *)

Section BlockFacts.

Lemma block_get_dict block (key : string) default :
  is_dict block = true ->
  block_get block key default
  = inr (match block with
         | VDict d => PyDict.get_default d (py key) default
         | _ => default
         end).
Proof. destruct block; simpl; try discriminate. reflexivity. Qed.

Lemma reasoning_blocks_dicts blocks :
  (forall b, In b blocks -> is_dict b = true) ->
  reasoning_blocks blocks
  = inr (List.map (fun b => block_text b (VStr []))
           (filter is_reasoning_block blocks)).
Proof.
  induction blocks as [|b blocks IH]; intros Hd; [reflexivity|].
  assert (Hb : is_dict b = true) by (apply Hd; left; reflexivity).
  cbn [reasoning_blocks filter].
  rewrite block_get_dict by exact Hb.
  rewrite IH by (intros x Hx; apply Hd; right; exact Hx).
  destruct b; try discriminate Hb.
  unfold is_reasoning_block, block_type.
  destruct (eq_str (PyDict.get_default d (py "type") VNone) (py "reasoning")
            || eq_str (PyDict.get_default d (py "type") VNone) (py "thinking")
            || eq_str (PyDict.get_default d (py "type") VNone) (py "system"));
    reflexivity.
Qed.

Lemma reasoning_blocks_foreign blocks :
  (exists b, In b blocks /\ is_dict b = false) ->
  exists msg, reasoning_blocks blocks = inl (AttributeError msg).
Proof.
  induction blocks as [|b blocks IH]; intros [x [Hin Hx]]; [destruct Hin|].
  cbn [reasoning_blocks].
  destruct (is_dict b) eqn:Hb.
  - destruct Hin as [->|Hin]; [congruence|].
    destruct (IH (ex_intro _ x (conj Hin Hx))) as [msg Hmsg].
    rewrite block_get_dict by exact Hb.
    destruct b; try discriminate Hb. simpl block_get. rewrite Hmsg.
    exists msg.
    destruct (eq_str _ _ || eq_str _ _ || eq_str _ _); reflexivity.
  - destruct b; try discriminate Hb; eexists; reflexivity.
Qed.


Lemma all_str_foreign parts :
  (exists v, In v parts /\ is_str v = false) ->
  exists msg, all_str parts = inl (TypeError msg).
Proof.
  unfold all_str. generalize 0.
  induction parts as [|v parts IH]; intros index [x [Hin Hx]];
    [destruct Hin|].
  destruct (is_str v) eqn:Hv.
  - destruct Hin as [->|Hin]; [congruence|].
    destruct (IH (S index) (ex_intro _ x (conj Hin Hx))) as [msg Hmsg].
    destruct v; try discriminate Hv. simpl. rewrite Hmsg.
    exists msg. reflexivity.
  - destruct v; try discriminate Hv; simpl; eexists; reflexivity.
Qed.


(** X7. A block list that holds a block which is not a mapping cannot be
    normalised: the endpoint's tail raises [AttributeError], whatever the
    other blocks are. *)
Theorem block_list_with_foreign_block blocks used :
  (exists b, In b blocks /\ is_dict b = false) ->
  exists msg,
    respond {| text_ := VList blocks; tool_used := used |}
    = inl (AttributeError msg).
Proof.
  intros H. destruct (@reasoning_blocks_foreign blocks H) as [msg Hmsg].
  exists msg. unfold respond, normalize. cbn [text_]. rewrite Hmsg.
  reflexivity.
Qed.


(** X9. The reasoning is dropped from the response, yet it can fail the
    request: a block of type reasoning, thinking or system whose [text] is
    not a string makes the join raise [TypeError]. *)
Theorem reasoning_text_not_a_string blocks used :
  (forall b, In b blocks -> is_dict b = true) ->
  (exists b, In b blocks /\ is_reasoning_block b = true
             /\ is_str (block_text b (VStr [])) = false) ->
  exists msg,
    respond {| text_ := VList blocks; tool_used := used |}
    = inl (TypeError msg).
Proof.
  intros Hd [b [Hin [Hrb Hs]]]. unfold respond, normalize. cbn [text_].
  rewrite reasoning_blocks_dicts by exact Hd.
  destruct (@all_str_foreign
              (List.map (fun b => block_text b (VStr []))
                 (filter is_reasoning_block blocks))) as [msg Hmsg].
  { exists (block_text b (VStr [])). split; [|exact Hs].
    apply in_map_iff. exists b. split; [reflexivity|].
    apply filter_In. split; assumption. }
  exists msg. rewrite Hmsg. reflexivity.
Qed.

End BlockFacts.

(** ** More on the dispatcher *)

Section DispatchEdges.

Context {env : Collaborators}.

Lemma chat_calls_app l1 l2 :
  chat_calls (l1 ++ l2) = chat_calls l1 + chat_calls l2.
Proof. unfold chat_calls. rewrite filter_app, length_app. reflexivity. Qed.

Lemma tool_invocations_app l1 l2 :
  tool_invocations (l1 ++ l2) = tool_invocations l1 ++ tool_invocations l2.
Proof. unfold tool_invocations. apply filter_app. Qed.

(** The first phase, whatever its outcome: the client is left alone, no
    tool is invoked and the model is called at most once. *)
Lemma phase1_footprint cl mid msgs st r st1 :
  phase1 cl mid msgs st = (r, st1) ->
  mcp_client st1 = mcp_client st
  /\ exists evs,
       log st1 = log st ++ evs
       /\ chat_calls evs <= 1
       /\ tool_invocations evs = [].
Proof.
  unfold phase1, bind, self, call, lift, raised, ret. intros H.
  destruct (available_tools_loop (mcp_client st) (sessions (mcp_client st))
              [] st) as [[e|tools] st0] eqn:Hloop;
    apply available_tools_loop_log in Hloop;
    destruct Hloop as [Hc [evs [Hlog Hq]]].
  - inversion H; subst. split; [exact Hc|]. exists evs.
    split; [exact Hlog|]. unfold chat_calls, tool_invocations.
    rewrite (schema_queries_no_chat Hq), (schema_queries_no_tool Hq).
    split; [simpl; lia|reflexivity].
  - assert (Hst : mcp_client st1 = mcp_client st
                  /\ log st1
                     = log st
                       ++ evs ++ [EvChat cl (phase1_request mid msgs tools)]).
    { destruct (completions_create cl (phase1_request mid msgs tools)
                  (world st0)) as [[e|completion] w].
      - inversion H; subst. simpl. rewrite Hlog, <- app_assoc. auto.
      - destruct (first_item (choices completion));
          inversion H; subst; simpl; rewrite Hlog, <- app_assoc; auto. }
    destruct Hst as [Hc1 Hl1]. split; [exact Hc1|].
    exists (evs ++ [EvChat cl (phase1_request mid msgs tools)]).
    split; [exact Hl1|].
    rewrite chat_calls_app, tool_invocations_app.
    unfold chat_calls, tool_invocations.
    rewrite (schema_queries_no_chat Hq), (schema_queries_no_tool Hq).
    split; [simpl; lia|reflexivity].
Qed.

(** X10. Whatever happens in a dispatch, it leaves the client as it is,
    only adds to the log, calls the model at most twice and invokes at most
    one tool. *)
Theorem process_query_footprint cl mid msgs st :
  mcp_client (snd (process_query cl mid msgs st)) = mcp_client st
  /\ exists evs,
       log (snd (process_query cl mid msgs st)) = log st ++ evs
       /\ chat_calls evs <= 2
       /\ List.length (tool_invocations evs) <= 1.
Proof.
  unfold process_query, bind.
  destruct (phase1 cl mid msgs st) as [[e|msg] st1] eqn:H1;
    destruct (phase1_footprint _ _ _ _ H1) as [Hc [evs [Hlog [Hch Ht]]]].
  - simpl. split; [exact Hc|]. exists evs. rewrite Ht. simpl.
    split; [exact Hlog|]. split; lia.
  - assert (Hd : mcp_client (snd (dispatch_reply cl mid msgs msg st1))
                 = mcp_client st1
                 /\ exists evs2,
                      log (snd (dispatch_reply cl mid msgs msg st1))
                      = log st1 ++ evs2
                      /\ chat_calls evs2 <= 1
                      /\ List.length (tool_invocations evs2) <= 1).
    { unfold dispatch_reply.
      destruct (truthy (content msg)
                && negb (has_tool_calls (tool_calls msg))).
      { simpl. split; [reflexivity|]. exists []. rewrite app_nil_r.
        split; [reflexivity|]. split; unfold chat_calls, tool_invocations; simpl; lia. }
      destruct (tool_calls msg) as [[|tc more]|];
        try (simpl; split; [reflexivity|]; exists []; rewrite app_nil_r;
             split; [reflexivity|]; split; unfold chat_calls, tool_invocations; simpl; lia).
      destruct (invoke_tool cl mid msgs tc st1) as [r st2] eqn:Hi.
      destruct (invoke_tool_log _ _ _ _ _ Hi) as [Hc2 Hl]. simpl.
      split; [exact Hc2|].
      destruct Hl as [Hl|[server [tool [args [session [_ [_ [_ Hl]]]]]]]].
      - exists []. rewrite app_nil_r. split; [exact Hl|].
        split; unfold chat_calls, tool_invocations; simpl; lia.
      - destruct Hl as [Hl|[rq Hl]].
        + exists [EvCallTool session tool args]. split; [exact Hl|].
          split; unfold chat_calls, tool_invocations; simpl; lia.
        + exists [EvCallTool session tool args; EvChat cl rq].
          split; [exact Hl|]. split; unfold chat_calls, tool_invocations; simpl; lia. }
    destruct Hd as [Hc2 [evs2 [Hlog2 [Hch2 Ht2]]]].
    split; [rewrite Hc2; exact Hc|].
    exists (evs ++ evs2). rewrite Hlog2, Hlog, <- app_assoc.
    split; [reflexivity|].
    rewrite chat_calls_app, tool_invocations_app, Ht. simpl.
    split; lia.
Qed.

(** X11. A tool request whose identifier has no separator cannot be
    unpacked into server and tool: the dispatch raises [ValueError] right
    after the first reply, without a tool invocation or a second call of
    the model. *)
Theorem tool_name_without_separator cl mid msgs st msg st1 tc more :
  phase1 cl mid msgs st = (inr msg, st1) ->
  tool_calls msg = Some (tc :: more) ->
  ~ In colon (function_name tc) ->
  process_query cl mid msgs st
  = (inl (Exc (ValueError
                 (py "not enough values to unpack (expected 2, got 1)"))),
     st1).
Proof.
  intros H1 Htc Hnot.
  unfold process_query. erewrite bind_ok by exact H1.
  rewrite (dispatch_reply_tool _ _ _ _ Htc).
  unfold invoke_tool, bind, lift, raised.
  rewrite parse_namespaced_no_separator by exact Hnot. reflexivity.
Qed.

(** X12. The prompt of the second call reads the content of the caller's
    last turn only after the tool has run: with an empty conversation, or a
    last turn without [content], the tool is invoked and then the dispatch
    raises ([IndexError], [KeyError]); the model is not called again. *)
Theorem tool_runs_before_prompt_fails cl mid msgs st msg st1 tc more server
        tool args session tool_result w2 res :
  phase1 cl mid msgs st = (inr msg, st1) ->
  tool_calls msg = Some (tc :: more) ->
  parse_namespaced (function_name tc) = inr (server, tool) ->
  json_loads (function_arguments tc) = inr args ->
  PyDict.get (sessions (mcp_client st)) server = Some session ->
  session_call_tool session tool args (world st1) = (inr tool_result, w2) ->
  extract_result tool_result = inr res ->
  msgs = []
  \/ (exists pre turn,
        msgs = pre ++ [turn] /\ PyDict.get turn (py "content") = None) ->
  process_query cl mid msgs st
  = (inl (Exc (match msgs with
               | [] => IndexError (py "list index out of range")
               | _ => KeyError (py "content")
               end)),
     after_call st1 (EvCallTool session tool args) w2).
Proof.
  intros H1 Htc Hp Hj Hs Hc Hx Hm.
  destruct (phase1_log _ _ _ _ H1) as [Hcl _]. rewrite <- Hcl in Hs.
  unfold process_query. erewrite bind_ok by exact H1.
  rewrite (dispatch_reply_tool _ _ _ _ Htc).
  erewrite invoke_tool_after_call by eassumption.
  unfold bind at 1, lift at 1. rewrite Hx.
  unfold bind at 1, lift at 1.
  destruct Hm as [->|[pre [turn [-> Hget]]]].
  - reflexivity.
  - unfold final_prompt_of, last_item. rewrite rev_app_distr. simpl rev.
    cbn [app]. unfold subscript. rewrite Hget.
    destruct pre; reflexivity.
Qed.

Lemma invoke_tool_tool_used cl mid msgs tc st r st2 :
  invoke_tool cl mid msgs tc st = (inr r, st2) ->
  tool_used r = None \/ tool_used r = Some (function_name tc).
Proof.
  unfold invoke_tool, bind, lift, self, call, await, raised, ret. intros H.
  destruct (parse_namespaced (function_name tc)) as [e|[server tool]]
    eqn:Hp; [discriminate H|].
  apply parse_namespaced_inv in Hp. destruct Hp as [Hname _].
  destruct (json_loads (function_arguments tc)) as [e|args];
    [discriminate H|].
  simpl in H.
  destruct (PyDict.get (sessions (mcp_client st)) server) as [session|].
  2:{ inversion H; subst. left. reflexivity. }
  destruct (session_call_tool session tool args (world st))
    as [[e|tool_result] w2]; [discriminate H|].
  simpl in H.
  destruct (extract_result tool_result) as [e|res]; [discriminate H|].
  destruct (final_prompt_of msgs res) as [e|prompt]; [discriminate H|].
  simpl in H.
  destruct (completions_create cl (phase2_request mid prompt) w2)
    as [[e|completion2] w3]; [discriminate H|].
  destruct (first_item (choices completion2)) as [e|ch2]; [discriminate H|].
  inversion H; subst. right. simpl. rewrite Hname. reflexivity.
Qed.

(** X14. The tool reported by a dispatch is the identifier the model asked
    for, code point for code point: a result that names a tool names the
    [function.name] of the first tool call of the first reply. *)
Theorem tool_used_is_requested_name cl mid msgs st msg st1 r st2 id :
  phase1 cl mid msgs st = (inr msg, st1) ->
  process_query cl mid msgs st = (inr r, st2) ->
  tool_used r = Some id ->
  exists tc more,
    tool_calls msg = Some (tc :: more) /\ id = function_name tc.
Proof.
  intros H1 Hq Hu. unfold process_query in Hq.
  erewrite bind_ok in Hq by exact H1. unfold dispatch_reply in Hq.
  destruct (truthy (content msg) && negb (has_tool_calls (tool_calls msg))).
  { inversion Hq; subst. discriminate Hu. }
  destruct (tool_calls msg) as [[|tc more]|];
    try (inversion Hq; subst; discriminate Hu).
  exists tc, more. split; [reflexivity|].
  destruct (invoke_tool_tool_used _ _ _ _ _ Hq) as [Hn|Hs]; congruence.
Qed.


End DispatchEdges.

(** ** More on tool enumeration *)

Section EnumerationMore.

Context {env : Collaborators}.

(** X16. A session that is not flagged active is never queried: both
    enumerations run exactly as over the active sessions alone; with no
    active session [list_all_tools] returns the empty list and calls
    nothing. *)
Theorem enumeration_skips_inactive c items :
  (forall acc st,
     list_all_tools_loop c items acc st
     = list_all_tools_loop c
         (filter (fun kv => is_active c (fst kv)) items) acc st)
  /\ (forall acc st,
        available_tools_loop c items acc st
        = available_tools_loop c
            (filter (fun kv => is_active c (fst kv)) items) acc st)
  /\ ((forall kv, In kv items -> is_active c (fst kv) = false) ->
      forall st, list_all_tools_loop c items [] st = (inr [], st)).
Proof.
  split; [|split].
  - induction items as [|[name session] items IH]; intros acc st;
      [reflexivity|].
    cbn [list_all_tools_loop filter fst].
    destruct (is_active c name) eqn:E; cbn [negb].
    + cbn [list_all_tools_loop]. rewrite E. cbn [negb].
      unfold bind. destruct (await _ _ st) as [[e|tools] st'];
        [reflexivity|apply IH].
    + apply IH.
  - induction items as [|[name session] items IH]; intros acc st;
      [reflexivity|].
    cbn [available_tools_loop filter fst].
    destruct (is_active c name) eqn:E; cbn [negb].
    + cbn [available_tools_loop]. rewrite E. cbn [negb].
      unfold bind. destruct (await _ _ st) as [[e|tools] st'];
        [reflexivity|apply IH].
    + apply IH.
  - induction items as [|[name session] items IH]; intros H st;
      [reflexivity|].
    cbn [list_all_tools_loop].
    pose proof (H (name, session) (or_introl eq_refl)) as Hn.
    cbn [fst] in Hn. rewrite Hn. cbn [negb].
    apply IH. intros kv Hin. apply H. right. exact Hin.
Qed.

Lemma same_tools_app tools schema name response :
  same_tools tools schema ->
  same_tools (tools ++ List.map (describe name) response)
    (schema ++ List.map (function_spec name) response).
Proof.
  intros [Hn Hd]. unfold same_tools. rewrite !map_app, Hn, Hd, !map_map.
  split; reflexivity.
Qed.

Lemma enumerations_same_tools c items :
  forall acc acc' st tools st',
    same_tools acc acc' ->
    list_all_tools_loop c items acc st = (inr tools, st') ->
    exists schema,
      available_tools_loop c items acc' st = (inr schema, st')
      /\ same_tools tools schema.
Proof.
  induction items as [|[name session] items IH];
    intros acc acc' st tools st' Hs H.
  - inversion H; subst. exists acc'. split; [reflexivity|exact Hs].
  - cbn [list_all_tools_loop available_tools_loop] in *.
    destruct (negb (is_active c name)); [apply (IH _ _ _ _ _ Hs H)|].
    unfold bind in *.
    destruct (await (EvListTools session) (session_list_tools session) st)
      as [[e|response] st1]; [discriminate H|].
    apply (IH _ _ _ _ _ (same_tools_app name response Hs) H).
Qed.

(** X17. The schema offered to the model is the tool list of
    [list_all_tools] under other names: from the same state the schema build
    makes the same queries and yields, in the same order, the identifiers
    [server:tool] and the descriptions of the tools [list_all_tools]
    returns; that schema is what the first request carries. *)
Theorem schema_matches_tool_list cl mid msgs st tools st1 :
  list_all_tools st = (inr tools, st1) ->
  exists schema,
    available_tools_loop (mcp_client st) (sessions (mcp_client st)) [] st
    = (inr schema, st1)
    /\ same_tools tools schema
    /\ log (snd (phase1 cl mid msgs st))
       = log st1 ++ [EvChat cl (phase1_request mid msgs schema)].
Proof.
  unfold list_all_tools, bind at 1, self. intros H.
  destruct (@enumerations_same_tools (mcp_client st)
              (sessions (mcp_client st)) [] [] st tools st1)
    as [schema [Hs Hsame]]; [split; reflexivity|exact H|].
  exists schema. split; [exact Hs|]. split; [exact Hsame|].
  unfold phase1, bind, self, call, lift, raised, ret. rewrite Hs.
  destruct (completions_create cl (phase1_request mid msgs schema)
              (world st1)) as [[e|completion] w]; [reflexivity|].
  destruct (first_item (choices completion)); reflexivity.
Qed.

End EnumerationMore.

(** ** More on the supervisor *)

Section DictMore.

Variable V : Type.
Implicit Types (d : PyDict.t V) (k : text) (v : V).

Lemma keys_set d k v :
  PyDict.keys (PyDict.set d k v)
  = if PyDict.mem d k then PyDict.keys d else PyDict.keys d ++ [k].
Proof.
  unfold PyDict.mem. induction d as [|[k' v'] d IH]; simpl; [reflexivity|].
  destruct (text_eqb k' k) eqn:E; simpl; [reflexivity|].
  rewrite IH. destruct (PyDict.get d k); reflexivity.
Qed.

Lemma mem_keys d k : PyDict.mem d k = true <-> In k (PyDict.keys d).
Proof.
  unfold PyDict.mem. induction d as [|[k' v'] d IH]; simpl.
  - split; [discriminate|tauto].
  - destruct (text_eqb k' k) eqn:E.
    + apply text_eqb_eq in E. split; [left; exact E|reflexivity].
    + apply text_eqb_neq in E. rewrite IH. split; [tauto|].
      intros [H|H]; [contradiction|exact H].
Qed.

Lemma keys_set_nodup d k v :
  NoDup (PyDict.keys d) -> NoDup (PyDict.keys (PyDict.set d k v)).
Proof.
  intros Hnd. rewrite keys_set. destruct (PyDict.mem d k) eqn:E;
    [exact Hnd|].
  apply NoDup_app; [exact Hnd|repeat constructor; intros []|].
  intros x Hx [<-|[]]. apply mem_keys in Hx. congruence.
Qed.

Lemma keys_set_in d k v n :
  In n (PyDict.keys (PyDict.set d k v)) <-> n = k \/ In n (PyDict.keys d).
Proof.
  rewrite keys_set. destruct (PyDict.mem d k) eqn:E.
  - apply mem_keys in E. split; [tauto|]. intros [->|H]; assumption.
  - rewrite in_app_iff. simpl. split.
    + intros [H|[H|[]]]; [right; exact H|left; symmetry; exact H].
    + intros [H|H]; [right; left; symmetry; exact H|left; exact H].
Qed.

End DictMore.

Section SupervisorMore.

Context {env : Collaborators}.


(** The report after one more server. *)
Lemma upload_loop_snoc pre srv :
  forall acc st,
    upload_loop (pre ++ [srv]) acc st
    = match upload_loop pre acc st with
      | (inr report, st1) =>
          match start_server srv st1 with
          | (inl (Exc e), st2) =>
              (inr (PyDict.set report (srv_name srv) (error_entry e)), st2)
          | (inl (Cancelled msg), st2) => (inl (Cancelled msg), st2)
          | (inr entry, st2) =>
              (inr (PyDict.set report (srv_name srv) entry), st2)
          end
      | (inl e, st1) => (inl e, st1)
      end.
Proof.
  intros acc st. rewrite upload_loop_app. unfold bind.
  destruct (upload_loop pre acc st) as [[e|report] st1]; [reflexivity|].
  rewrite upload_loop_cons.
  destruct (start_server srv st1) as [[[e|msg]|entry] st2]; reflexivity.
Qed.

Lemma upload_loop_keys servers :
  forall acc st report st',
    upload_loop servers acc st = (inr report, st') ->
    (NoDup (PyDict.keys acc) -> NoDup (PyDict.keys report))
    /\ (forall n, In n (PyDict.keys report)
                  <-> In n (PyDict.keys acc)
                      \/ In n (List.map srv_name servers)).
Proof.
  induction servers as [|srv rest IH]; intros acc st report st' H.
  - inversion H; subst. split; [tauto|]. intros n. simpl. tauto.
  - rewrite upload_loop_cons in H.
    destruct (start_server srv st) as [[[e|msg]|entry] st1];
      [|discriminate H|];
      apply IH in H; destruct H as [Hnd Hin]; (split;
      [intros Ha; apply Hnd; apply keys_set_nodup; exact Ha|]);
      intros n; rewrite Hin, keys_set_in; simpl;
      intuition (subst; auto).
Qed.

Lemma upload_loop_client servers :
  forall acc st name,
    ~ In name (List.map srv_name servers) ->
    PyDict.get (sessions (mcp_client (snd (upload_loop servers acc st)))) name
    = PyDict.get (sessions (mcp_client st)) name
    /\ PyDict.get
         (active_servers (mcp_client (snd (upload_loop servers acc st))))
         name
       = PyDict.get (active_servers (mcp_client st)) name.
Proof.
  induction servers as [|srv rest IH]; intros acc st name Hnot.
  - split; reflexivity.
  - rewrite upload_loop_cons.
    assert (Hne : srv_name srv <> name).
    { intros E. apply Hnot. left. exact E. }
    assert (Hrest : ~ In name (List.map srv_name rest)).
    { intros Hin. apply Hnot. right. exact Hin. }
    destruct (start_server srv st) as [[[e|msg]|entry] st1] eqn:Hs;
      destruct (start_server_inv _ _ Hs) as [[e' [Hr Hc]]|[session [cwd
        [Hr [_ Hc]]]]]; try discriminate Hr.
    + destruct (IH (PyDict.set acc (srv_name srv) (error_entry e)) st1 name
                  Hrest) as [H1 H2].
      rewrite H1, H2, Hc. split; reflexivity.
    + cbn [snd]. rewrite Hc. split; reflexivity.
    + destruct (IH (PyDict.set acc (srv_name srv) entry) st1 name Hrest)
        as [H1 H2].
      rewrite H1, H2, Hc. cbn [sessions active_servers].
      rewrite !get_set_other by exact Hne. split; reflexivity.
Qed.

Lemma upload_loop_consistent servers :
  forall acc st,
    consistent (mcp_client st) ->
    consistent (mcp_client (snd (upload_loop servers acc st))).
Proof.
  induction servers as [|srv rest IH]; intros acc st Hc; [exact Hc|].
  rewrite upload_loop_cons.
  destruct (start_server srv st) as [[[e|msg]|entry] st1] eqn:Hs;
    [apply IH| |apply IH];
    apply (proj2 (start_server_keeps _ _ Hs)); exact Hc.
Qed.

(** X18. An upload is additive: a server that the uploaded configuration
    does not name keeps its session and its flag, whatever happens to the
    servers of the configuration. *)
Theorem upload_is_additive servers st name :
  ~ In name (List.map srv_name servers) ->
  PyDict.get (sessions (mcp_client (snd (upload_config servers st)))) name
  = PyDict.get (sessions (mcp_client st)) name
  /\ PyDict.get
       (active_servers (mcp_client (snd (upload_config servers st)))) name
     = PyDict.get (active_servers (mcp_client st)) name.
Proof.
  intros Hnot. rewrite upload_config_state.
  apply upload_loop_client. exact Hnot.
Qed.



(** X21. A report has one entry per name: its keys are the names of the
    configuration without repetition, and when a name occurs more than once
    the entry is that of its last occurrence. *)
Theorem report_last_write_wins pre srv st report st2 :
  upload_config (pre ++ [srv]) st = (inr (ServersOk report), st2) ->
  NoDup (PyDict.keys report)
  /\ (forall n, In n (PyDict.keys report)
                <-> In n (List.map srv_name (pre ++ [srv])))
  /\ exists st1 entry,
       snd (upload_config pre st) = st1
       /\ PyDict.get report (srv_name srv) = Some entry
       /\ (fst (start_server srv st1) = inr entry
           \/ exists e, fst (start_server srv st1) = inl (Exc e)
                        /\ entry = error_entry e).
Proof.
  intros Hu. apply upload_config_report in Hu.
  destruct (upload_loop_keys _ _ _ Hu) as [Hnd Hin].
  split; [apply Hnd; constructor|].
  split; [intros n; rewrite Hin; simpl; tauto|].
  rewrite upload_loop_snoc in Hu.
  exists (snd (upload_loop pre [] st)).
  destruct (upload_loop pre [] st) as [[e|report1] st1] eqn:Hl1;
    [discriminate Hu|]. cbn [snd].
  destruct (start_server srv st1) as [[[e|msg]|entry] st2'] eqn:Hs;
    [|discriminate Hu|]; inversion Hu; subst report st2'; eexists;
    (split; [rewrite upload_config_state, Hl1; reflexivity|]);
    (split; [apply get_set_same|]); cbn [fst]; eauto.
Qed.

(** X22. Every upload keeps the client coherent: if each connected server
    was flagged active before, so it is after, so that what a dispatch can
    resolve is also what the enumerations list. *)
Theorem upload_keeps_consistent servers st :
  consistent (mcp_client st) ->
  consistent (mcp_client (snd (upload_config servers st))).
Proof.
  intros Hc. rewrite upload_config_state.
  apply upload_loop_consistent. exact Hc.
Qed.

(** X23. A successful connection registers the session under the name and
    flags it active, leaves every other name alone, and, when the name was
    connected already, takes the place of the old session without adding a
    handle. *)
Theorem connect_to_server_effect name command args cwd st session w :
  open_session command args cwd (world st) = (inr session, w) ->
  exists st',
    connect_to_server name command args cwd st = (inr tt, st')
    /\ PyDict.get (sessions (mcp_client st')) name = Some session
    /\ is_active (mcp_client st') name = true
    /\ (forall other,
          name <> other ->
          PyDict.get (sessions (mcp_client st')) other
          = PyDict.get (sessions (mcp_client st)) other
          /\ PyDict.get (active_servers (mcp_client st')) other
             = PyDict.get (active_servers (mcp_client st)) other)
    /\ PyDict.keys (sessions (mcp_client st'))
       = (if PyDict.mem (sessions (mcp_client st)) name
          then PyDict.keys (sessions (mcp_client st))
          else PyDict.keys (sessions (mcp_client st)) ++ [name])
    /\ log st' = log st ++ [EvConnect name command args cwd].
Proof.
  intros Ho. unfold connect_to_server, bind, await. rewrite Ho.
  eexists. split; [reflexivity|]. cbn [mcp_client sessions active_servers log
    after_call].
  split; [apply get_set_same|].
  split; [unfold is_active, PyDict.get_default; cbn [active_servers];
          rewrite get_set_same; reflexivity|].
  split; [intros other Hne; rewrite !get_set_other by exact Hne;
          split; reflexivity|].
  split; [apply keys_set|reflexivity].
Qed.




Lemma startup_server_inv srv st r st' :
  startup_server srv st = (r, st') ->
  (exists e, r = inl e /\ mcp_client st' = mcp_client st)
  \/ (exists session cwd,
        r = inr tt
        /\ mcp_client st'
           = {| sessions :=
                  PyDict.set (sessions (mcp_client st)) (srv_name srv)
                    session;
                active_servers :=
                  PyDict.set
                    (PyDict.set (active_servers (mcp_client st))
                       (srv_name srv) (VBool true))
                    (srv_name srv) (running_entry cwd) |}).
Proof.
  unfold startup_server, connect_to_server, set_active, bind, lift, await,
    ret.
  destruct (srv_command srv) as [command|]; cbn [srv_item raised];
    [|intros H; inversion H; subst; left; eauto].
  destruct (srv_args srv) as [args|]; cbn [srv_item raised];
    [|intros H; inversion H; subst; left; eauto].
  destruct (srv_cwd srv) as [cwd|]; cbn [srv_item raised];
    [|intros H; inversion H; subst; left; eauto].
  destruct (open_session command args cwd (world st)) as [[e|session] w];
    simpl; intros H; inversion H; subst; [left; eauto|].
  right. exists session, cwd. split; reflexivity.
Qed.

(** One turn of the loop of [startup_event]. *)
Lemma startup_loop_cons entry rest st :
  startup_loop (entry :: rest) st
  = match entry with
    | Named srv =>
        match startup_server srv st with
        | (inl (Cancelled msg), st1) => (inl (Cancelled msg), st1)
        | (_, st1) => startup_loop rest st1
        end
    | Unnamed e => (inl (Exc e), st)
    end.
Proof.
  cbn [startup_loop]. unfold bind at 1, try_except.
  destruct entry as [srv|e]; cbn [startup_entry entry_name].
  - destruct (startup_server srv st) as [[[e|msg]|[]] st1]; reflexivity.
  - reflexivity.
Qed.

Lemma startup_loop_listed entries :
  forall st,
    listed_as_running (mcp_client st) ->
    listed_as_running (mcp_client (snd (startup_loop entries st))).
Proof.
  induction entries as [|entry rest IH]; intros st Hl; [exact Hl|].
  rewrite startup_loop_cons. destruct entry as [srv|e]; [|exact Hl].
  destruct (startup_server srv st) as [[[e|msg]|[]] st1] eqn:Hs;
    destruct (startup_server_inv _ _ Hs) as [[e' [Hr Hc]]|[session [cwd
      [Hr Hc]]]]; try discriminate Hr.
  - apply IH. rewrite Hc. exact Hl.
  - cbn [snd]. rewrite Hc. exact Hl.
  - apply IH. rewrite Hc. intros name. cbn [sessions active_servers].
    rewrite mem_set.
    destruct (text_eqb (srv_name srv) name) eqn:E.
    + apply text_eqb_eq in E. subst name. intros _. exists cwd.
      apply get_set_same.
    + apply text_eqb_neq in E. simpl. intros Hm.
      rewrite !get_set_other by exact E. apply Hl. exact Hm.
Qed.

(** Up to the first item without name the loop either goes on or is
    cancelled. *)
Lemma startup_loop_unnamed pre e rest :
  forall st,
    (exists st', startup_loop (List.map Named pre ++ Unnamed e :: rest) st
                 = (inl (Exc e), st'))
    \/ (exists msg st', startup_loop (List.map Named pre ++ Unnamed e :: rest)
                          st
                        = (inl (Cancelled msg), st')).
Proof.
  induction pre as [|srv pre IH]; intros st; cbn [List.map app];
    rewrite startup_loop_cons.
  - left. exists st. reflexivity.
  - destruct (startup_server srv st) as [[[e0|msg]|[]] st1];
      [apply IH|right; eauto|apply IH].
Qed.

(** X25. [startup_event] keeps the listing of [/servers] in the long form
    on every path: if every connected server was listed with a mapping
    [{status: running, active: True, cwd}] before, so it is after.
    Without a configuration file, or with one that loads as [None], it does
    nothing.  It can raise: with a value for [servers] that has no length
    ([servers: null]) it raises before any server is started, and an item
    without name ends it with the error of [srv['name']], raised by the
    handler, unless the start of a server before that item was
    cancelled. *)
Theorem startup_event_listing file st :
  listed_as_running (mcp_client st) ->
  listed_as_running (mcp_client (snd (startup_event file st)))
  /\ (file = NoFile \/ file = EmptyYaml ->
      startup_event file st = (inr tt, st))
  /\ (forall e, file = Config (Unsized e) ->
      startup_event file st = (inl (Exc e), st))
  /\ (forall pre e rest,
        file = Config (Entries (List.map Named pre ++ Unnamed e :: rest)) ->
        fst (startup_event file st) = inl (Exc e)
        \/ exists msg, fst (startup_event file st) = inl (Cancelled msg)).
Proof.
  intros Hl. split; [|split; [|split]].
  - destruct file as [| |[e|entries]]; cbn [startup_event]; try exact Hl.
    apply startup_loop_listed. exact Hl.
  - intros [H|H]; subst file; reflexivity.
  - intros e H. subst file. reflexivity.
  - intros pre e rest H. subst file. cbn [startup_event].
    destruct (startup_loop_unnamed pre e rest st)
      as [[st' H]|[msg [st' H]]]; rewrite H; [left|right; exists msg];
      reflexivity.
Qed.

End SupervisorMore.

(** ** The adapter and the model table *)

Section AdapterFacts.

Import Adapter.

Variable str_lower : text -> text.
Variable expandvars : text -> text.
Variable getenv : text -> option text.
Variable new_client : ClientArgs -> result unit.

Lemma item_mem {V : Type} (d : list (text * V)) k v :
  item d k = inr v -> PyDict.mem d k = true.
Proof.
  unfold item, PyDict.mem. destruct (PyDict.get d k); [reflexivity|].
  discriminate.
Qed.

(** What a successful construction has read from the table. *)
Lemma init_inv table p m a :
  init str_lower expandvars getenv new_client table (Some p) m = inr a ->
  exists models model_info,
    item table (provider a) = inr models
    /\ item models (model a) = inr model_info
    /\ item model_info (py "model_id") = inr (model_id a)
    /\ provider a = match str_lower p with
                    | [] => py "huggingface"
                    | lowered => lowered
                    end
    /\ model a = match m with
                 | Some (c :: m') => c :: m'
                 | _ => py "gpt-oss-120b"
                 end.
Proof.
  unfold init.
  set (provider_ := match str_lower p with
                    | [] => py "huggingface"
                    | lowered => lowered
                    end).
  set (model_ := match m with
                 | Some (c :: m') => c :: m'
                 | _ => py "gpt-oss-120b"
                 end).
  destruct (negb (PyDict.mem table provider_)); [discriminate|].
  destruct (item table provider_) as [e|models] eqn:E1; [discriminate|].
  destruct (item models model_) as [e|model_info] eqn:E2; [discriminate|].
  destruct (item model_info (py "model_id")) as [e|mid] eqn:E3;
    [discriminate|].
  destruct (item model_info (py "base_url")) as [e|base]; [discriminate|].
  destruct (base_url_of expandvars base) as [e|bu]; [discriminate|].
  destruct (item model_info (py "api_env")) as [e|env_]; [discriminate|].
  destruct (api_key_of getenv env_) as [e|key]; [discriminate|].
  destruct (new_client _) as [e|[]]; [discriminate|].
  intros H. inversion H; subst a. cbn [provider model model_id].
  exists models, model_info. auto.
Qed.

(** X26. For a provider given in lower case and a model given by name, the
    identifier [chat_endpoint] looks up in the table is the one of the
    adapter it has just built. *)
Theorem adapter_and_lookup_agree table p m a :
  init str_lower expandvars getenv new_client table (Some p) (Some m) = inr a ->
  str_lower p = p -> p <> [] -> m <> [] ->
  provider a = p /\ model a = m
  /\ model_id_lookup table p m = inr (model_id a).
Proof.
  intros Hi Hl Hp Hm.
  destruct (@init_inv table p (Some m) a Hi)
    as [models [info [H1 [H2 [H3 [Hpa Hma]]]]]].
  rewrite Hl in Hpa.
  assert (Ep : provider a = p) by (destruct p; [contradiction|exact Hpa]).
  assert (Em : model a = m) by (destruct m; [contradiction|exact Hma]).
  rewrite Ep in H1. rewrite Em in H2.
  split; [exact Ep|]. split; [exact Em|].
  unfold model_id_lookup. rewrite H1, H2. exact H3.
Qed.

(** X27. The adapter lower-cases the provider, the endpoint does not: when
    the adapter is built for a provider whose name as given is not a key of
    the table, the lookup of the endpoint raises [KeyError] on that name for
    every model, although the adapter found its provider in the table. *)
Theorem adapter_and_lookup_disagree table p m a :
  init str_lower expandvars getenv new_client table (Some p) m = inr a ->
  PyDict.mem table p = false ->
  (forall m', model_id_lookup table p m' = inl (KeyError p))
  /\ PyDict.mem table (provider a) = true
  /\ provider a <> p.
Proof.
  intros Hi Hp.
  destruct (@init_inv table p m a Hi) as [models [info [H1 _]]].
  pose proof (@item_mem _ table (provider a) models H1) as Hm.
  split; [|split; [exact Hm|]].
  - intros m'. unfold model_id_lookup, item.
    unfold PyDict.mem in Hp. destruct (PyDict.get table p);
      [discriminate Hp|reflexivity].
  - intros E. rewrite E in Hm. congruence.
Qed.

End AdapterFacts.

(** ** The memory server *)

Section MemoryFacts.

Import ChatMemory.

Lemma recall_last_aux (n : Z) (chat_memory : Memory) :
  chat_memory <> [] -> (0 < n)%Z ->
  recall n chat_memory
  = skipn (List.length chat_memory - Z.to_nat n) chat_memory
  /\ List.length (recall n chat_memory)
     = Nat.min (Z.to_nat n) (List.length chat_memory)
  /\ recall n chat_memory <> [].
Proof.
  intros Hne Hn.
  assert (Hr : recall n chat_memory
               = skipn (List.length chat_memory - Z.to_nat n) chat_memory).
  { destruct chat_memory as [|m0 rest]; [contradiction|].
    unfold recall, slice_from.
    assert (E : (- n <? 0)%Z = true) by (apply Z.ltb_lt; lia).
    rewrite E. f_equal. lia. }
  assert (Hl : List.length (recall n chat_memory)
               = Nat.min (Z.to_nat n) (List.length chat_memory)).
  { rewrite Hr, length_skipn. lia. }
  split; [exact Hr|]. split; [exact Hl|].
  intros E. rewrite E in Hl. simpl in Hl.
  destruct chat_memory; [contradiction|]. simpl in Hl. lia.
Qed.

(** X28. [recall(n)] with [n >= 1] on a memory that is not empty returns
    the last [n] messages, oldest first, or all of them when there are
    fewer; it never returns the empty list. *)
Theorem recall_last (n : Z) (chat_memory : Memory) :
  chat_memory <> [] -> (0 < n)%Z ->
  recall n chat_memory
  = skipn (List.length chat_memory - Z.to_nat n) chat_memory
  /\ List.length (recall n chat_memory)
     = Nat.min (Z.to_nat n) (List.length chat_memory)
  /\ recall n chat_memory <> [].
Proof. apply recall_last_aux. Qed.

(** X29. [recall(n)] with [n <= 0] does not return "the last n": on a
    memory that is not empty, [recall(0)] returns the whole memory, and a
    negative [n] returns the memory without its [-n] oldest messages. *)
Theorem recall_nonpositive (n : Z) (chat_memory : Memory) :
  chat_memory <> [] -> (n <= 0)%Z ->
  recall n chat_memory = skipn (Z.to_nat (- n)) chat_memory
  /\ (n = 0%Z -> recall n chat_memory = chat_memory).
Proof.
  intros Hne Hn.
  assert (Hr : recall n chat_memory = skipn (Z.to_nat (- n)) chat_memory).
  { destruct chat_memory as [|m0 rest]; [contradiction|].
    unfold recall, slice_from.
    assert (E : (- n <? 0)%Z = false) by (apply Z.ltb_ge; lia).
    rewrite E.
    destruct (Z_le_gt_dec (- n) (Z.of_nat (List.length (m0 :: rest)))).
    - f_equal. lia.
    - rewrite !skipn_all2; [reflexivity|lia|lia]. }
  split; [exact Hr|]. intros ->. rewrite Hr. reflexivity.
Qed.

(** X30. What is remembered is recalled: after [remember(m)] the last
    message recalled is [m] and the earlier ones are still there; after
    [clear_memory()] every recall answers "No memory yet.". *)
Theorem remember_then_recall (m : text) (n : Z) (chat_memory : Memory) :
  recall 1 (snd (remember m chat_memory)) = [m]
  /\ recall (Z.of_nat (List.length chat_memory) + 1)
       (snd (remember m chat_memory))
     = chat_memory ++ [m]
  /\ fst (remember m chat_memory) = py "Remembered: '" ++ m ++ py "'"
  /\ recall n (snd (clear_memory chat_memory)) = [py "No memory yet."].
Proof.
  assert (Hne : chat_memory ++ [m] <> []).
  { destruct chat_memory; discriminate. }
  split; [|split; [|split; reflexivity]].
  - cbn [remember snd].
    destruct (@recall_last_aux 1 (chat_memory ++ [m]) Hne) as [Hr _];
      [lia|].
    rewrite Hr, length_app.
    replace (List.length chat_memory + List.length [m] - Z.to_nat 1)
      with (List.length chat_memory) by (simpl; lia).
    rewrite skipn_app, skipn_all, Nat.sub_diag. reflexivity.
  - cbn [remember snd].
    destruct (@recall_last_aux (Z.of_nat (List.length chat_memory) + 1)
                (chat_memory ++ [m]) Hne) as [Hr _]; [lia|].
    rewrite Hr, length_app.
    replace (List.length chat_memory + List.length [m]
             - Z.to_nat (Z.of_nat (List.length chat_memory) + 1))
      with 0 by (simpl; lia).
    reflexivity.
Qed.

End MemoryFacts.

(* ===================================================================== *)
(** * The further properties at work in the small world *)
(* ===================================================================== *)

Section MoreRuns.

Import Toy Scenes.

Ltac not_in :=
  let H := fresh "H" in
  vm_compute; intros H;
  repeat (destruct H as [H|H]; [discriminate H|]); exact H.

(** X11 on a request for the tool [calc]. *)
Lemma tool_name_without_separator_witness :
  fst (process_query (env := toy) tt (py "m") hi bare_name_state)
  = inl (Exc (ValueError
                (py "not enough values to unpack (expected 2, got 1)"))).
Proof.
  erewrite (@tool_name_without_separator toy tt (py "m") hi bare_name_state).
  - reflexivity.
  - cbv; reflexivity.
  - cbv; reflexivity.
  - not_in.
Defined.

(** X3 on a text with a tag that is never closed. *)
Lemma filter_keeps_unmarked_text_witness :
  strip_reasoning (py " <think>still here ") = py "<think>still here".
Proof.
  rewrite (@filter_keeps_unmarked_text (py " <think>still here ")).
  - vm_compute. reflexivity.
  - not_in.
  - not_in.
  - right. not_in.
  - vm_compute. reflexivity.
Defined.

(** X6 on two spaces and a newline. *)
Lemma filter_blank_text_witness :
  strip_reasoning [32%N; 32%N; 10%N] = [].
Proof.
  apply (@filter_blank_text [32%N; 32%N; 10%N]).
  intros c Hc.
  repeat (destruct Hc as [Hc|Hc]; [subst c; reflexivity|]).
  destruct Hc.
Defined.

(** X7 on a block list that holds a string. *)
Lemma block_list_with_foreign_block_witness :
  exists msg,
    respond {| text_ := VList [block "output_text" "4"; VStr (py "5")];
               tool_used := None |}
    = inl (AttributeError msg).
Proof.
  apply (@block_list_with_foreign_block
           [block "output_text" "4"; VStr (py "5")] None).
  exists (VStr (py "5")). split; [right; left; reflexivity|reflexivity].
Defined.


(** X9 on a reasoning block whose text is [None]. *)
Lemma reasoning_text_not_a_string_witness :
  exists msg,
    respond {| text_ := VList broken_reasoning; tool_used := None |}
    = inl (TypeError msg).
Proof.
  apply (@reasoning_text_not_a_string broken_reasoning None).
  - intros b Hb.
    repeat (destruct Hb as [Hb|Hb]; [subst b; reflexivity|]). destruct Hb.
  - eexists. split; [left; reflexivity|]. split; reflexivity.
Defined.

(** X12 on an empty conversation. *)
Lemma tool_runs_before_prompt_fails_witness :
  fst (process_query (env := toy) tt (py "m") [] one_reply_state)
  = inl (Exc (IndexError (py "list index out of range")))
  /\ tool_invocations
       (log (snd (process_query (env := toy) tt (py "m") []
                    one_reply_state)))
     = [EvCallTool (env := toy) (session 1) (py "a") (VDict [])].
Proof.
  erewrite (@tool_runs_before_prompt_fails toy tt (py "m") []
              one_reply_state); cycle 1.
  - cbv; reflexivity.
  - cbv; reflexivity.
  - cbv; reflexivity.
  - cbv; reflexivity.
  - cbv; reflexivity.
  - cbv; reflexivity.
  - cbv; reflexivity.
  - left. reflexivity.
  - split; reflexivity.
Defined.

(** X14 on the request for [calc:a]. *)
Lemma tool_used_is_requested_name_witness :
  exists tc more,
    Some [call_of "calc:a" "{}"; call_of "notes:a" "{}"] = Some (tc :: more)
    /\ py "calc:a" = function_name tc.
Proof.
  eapply (@tool_used_is_requested_name toy tt (py "m") hi calc_state
            {| content := VStr (py "let me see");
               tool_calls := Some [call_of "calc:a" "{}";
                                   call_of "notes:a" "{}"] |}).
  - cbv; reflexivity.
  - cbv; reflexivity.
  - reflexivity.
Defined.


(** X17 on the client with [calc] and [notes]. *)
Lemma schema_matches_tool_list_witness :
  exists schema,
    available_tools_loop (env := toy) two_servers (sessions two_servers) []
      hello_state
    = (inr schema, snd (list_all_tools (env := toy) hello_state))
    /\ List.map fn_name schema = [py "calc:a"; py "notes:a"].
Proof.
  edestruct (@schema_matches_tool_list toy tt (py "m") hi hello_state)
    as [schema [Hs [[Hn _] _]]].
  - cbv; reflexivity.
  - exists schema. split; [exact Hs|]. rewrite Hn. reflexivity.
Defined.

(** X23 on a first connection. *)
Lemma connect_to_server_effect_witness :
  exists st',
    connect_to_server (env := toy) (py "calc") (VStr (py "uv")) (VList [])
      VNone empty_state = (inr tt, st')
    /\ PyDict.get (sessions (mcp_client st')) (py "calc") = Some (session 2)
    /\ is_active (mcp_client st') (py "calc") = true.
Proof.
  edestruct (@connect_to_server_effect toy (py "calc") (VStr (py "uv"))
               (VList []) VNone empty_state)
    as [st' [Hc [Hg [Ha _]]]].
  - cbv; reflexivity.
  - exists st'. split; [exact Hc|]. split; [exact Hg|exact Ha].
Defined.

(** X18 on the batch [a], [b], [c] uploaded to the client with [calc]. *)
Lemma upload_is_additive_witness :
  ~ In (py "calc") (List.map srv_name batch)
  /\ PyDict.get
       (sessions (mcp_client (snd (upload_config (env := toy) batch
                                     hello_state)))) (py "calc")
     = Some (session 1).
Proof.
  assert (Hn : ~ In (py "calc") (List.map srv_name batch)) by not_in.
  split; [exact Hn|].
  destruct (@upload_is_additive toy batch hello_state (py "calc") Hn)
    as [Hs _].
  rewrite Hs. reflexivity.
Defined.



(** X21 on a configuration that names [a] twice: the entry of [a] is that
    of its second occurrence, which cannot start. *)
Lemma report_last_write_wins_witness :
  exists report,
    fst (upload_config (env := toy)
           ([spec_of "a" (VStr (py "python"))] ++ [spec_of "a" VNone])
           empty_state)
    = inr (ServersOk report)
    /\ PyDict.keys report = [py "a"]
    /\ NoDup (PyDict.keys report).
Proof.
  eexists. split; [reflexivity|]. split; [reflexivity|].
  eapply (@report_last_write_wins toy [spec_of "a" (VStr (py "python"))]
            (spec_of "a" VNone) empty_state).
  reflexivity.
Defined.

(** X22 on the batch [a], [b], [c] uploaded to the empty client. *)
Lemma upload_keeps_consistent_witness :
  consistent (mcp_client (snd (upload_config (env := toy) batch
                                 empty_state))).
Proof.
  apply (@upload_keeps_consistent toy batch empty_state).
  intros name H. discriminate H.
Defined.


(** X25 on a configuration whose second item has no name. *)
Lemma startup_event_listing_witness :
  listed_as_running
    (mcp_client
       (snd (startup_event (env := toy)
               (Config (Entries (List.map Named batch))) empty_state)))
  /\ fst (startup_event (env := toy)
            (Config (Entries
                       (List.map Named [spec_of "a" (VStr (py "python"))]
                        ++ Unnamed (KeyError (py "name"))
                           :: [Named (spec_of "c" (VStr (py "uv")))])))
            empty_state)
     = inl (Exc (KeyError (py "name")))
  /\ startup_event (env := toy)
       (Config (Unsized (TypeError
                           (py "object of type 'NoneType' has no len()"))))
       empty_state
     = (inl (Exc (TypeError (py "object of type 'NoneType' has no len()"))),
        empty_state).
Proof.
  assert (Hl : listed_as_running (mcp_client empty_state)).
  { intros name H. discriminate H. }
  split; [|split].
  - apply (@startup_event_listing toy
             (Config (Entries (List.map Named batch))) empty_state Hl).
  - reflexivity.
  - reflexivity.
Defined.

(** X26 on the table with [openai]. *)
Lemma adapter_and_lookup_agree_witness :
  Adapter.model_id_lookup Adapter.small_table (py "openai") (py "gpt")
  = inr (VStr (py "gpt-4o")).
Proof.
  edestruct (@adapter_and_lookup_agree Adapter.ascii_str_lower
               (fun s => s) Adapter.one_key Adapter.keyed_client
               Adapter.small_table (py "openai") (py "gpt")) as [_ [_ Hl]].
  - cbv; reflexivity.
  - reflexivity.
  - discriminate.
  - discriminate.
  - rewrite Hl. reflexivity.
Defined.

(** X27 on the provider spelled [OpenAI]. *)
Lemma adapter_and_lookup_disagree_witness :
  Adapter.model_id_lookup Adapter.small_table (py "OpenAI") (py "gpt")
  = inl (KeyError (py "OpenAI")).
Proof.
  edestruct (@adapter_and_lookup_disagree Adapter.ascii_str_lower
               (fun s => s) Adapter.one_key Adapter.keyed_client
               Adapter.small_table (py "OpenAI") (Some (py "gpt")))
    as [Hl _].
  - cbv; reflexivity.
  - reflexivity.
  - apply Hl.
Defined.

(** X28 on a memory of three messages. *)
Lemma recall_last_witness :
  ChatMemory.recall 2 [py "a"; py "b"; py "c"] = [py "b"; py "c"].
Proof.
  edestruct (@recall_last 2 [py "a"; py "b"; py "c"]) as [Hr _].
  - discriminate.
  - reflexivity.
  - rewrite Hr. reflexivity.
Defined.

(** X29 on the same memory. *)
Lemma recall_nonpositive_witness :
  ChatMemory.recall 0 [py "a"; py "b"; py "c"] = [py "a"; py "b"; py "c"]
  /\ ChatMemory.recall (-1) [py "a"; py "b"; py "c"] = [py "b"; py "c"].
Proof.
  split.
  - edestruct (@recall_nonpositive 0 [py "a"; py "b"; py "c"]) as [_ H0].
    + discriminate.
    + apply Z.le_refl.
    + apply H0. reflexivity.
  - reflexivity.
Defined.

End MoreRuns.
